(** * Dataset assembly for tropical-cyclone-genesis prediction

    A shallow embedding of [src/data/utils_dataset.py]: the domain cropper
    [crop_field], the repeat check [check_consecutive_repeats] and the two
    builders [build_dataset] and [build_dataset_noTS], followed by the
    properties of the specification that concern them.

    Conventions of the embedding.
    - Coordinates, index values and series values are rationals ([Q]); the
      floating-point operations of the source are read as exact arithmetic.
      They are exact on the labels of a grid of whole, half, quarter or
      eighth degrees (multiples of 1/64 of moderate size) and on cells that
      are whole numbers with sums below 2^24; elsewhere the source computes
      the rounding of the result given here.
    - A field is a [Dataset] with both its coordinate axes; a field that
      lacks one is not a value of the type.
    - A pandas [Timestamp] is a calendar date (year, month, day).
    - Python exceptions are values of [Exn]; a function that may raise
      returns [Exn + A].
    - File accesses and printed lines are recorded, in order, in the log of
      the monad [M]; the content of the files is given by a [FileSystem].
    - Library calls whose numerical content the source only wires together
      (STL, frame concatenation, dataset concatenation, masking, the outlier
      statistic) are the fields of the class [Externals], and so is the
      reading of a date string that is neither ISO 8601 within the range of
      a nanosecond [Timestamp] nor three short numbers. *)

From Stdlib Require Import ZArith QArith Qround Bool Lia Lqa.
From Stdlib Require Import Ascii String DecimalString.
From Stdlib Require Import List Sorted.
Import ListNotations.

(* ================================================================= *)
(** ** Exceptions, events and the builder monad *)

Inductive Exn : Type :=
| ValueError (msg : string)
| KeyError
| IndexError
| UnboundLocalError (name : string)
| IOError (path : string)
| DateParseError (s : string).

Record Timestamp : Type := mkTimestamp { year : Z; month : Z; day : Z }.

(** One argument of a [print] call: a string, or an index of labels. *)
Inductive Printed : Type :=
| Text (s : string)
| Labels (index : list Timestamp).

Inductive Event : Type :=
| ReadTable (path : string)       (* pd.read_table *)
| ReadCsv (path : string)         (* pd.read_csv *)
| OpenDataset (path : string)     (* xr.open_dataset *)
| OpenDataArray (path : string)   (* xr.open_dataarray *)
| Print (args : list Printed).

(** A computation yields the events it performed and either the exception
    that stopped it or its value. *)
Definition M (A : Type) : Type := (list Event * (Exn + A))%type.

Definition ret {A} (a : A) : M A := ([], inr a).

Definition raise {A} (e : Exn) : M A := ([], inl e).

Definition lift {A} (r : Exn + A) : M A := ([], r).

Definition emit (ev : Event) : M unit := ([ev], inr tt).

Definition bind {A B} (m : M A) (f : A -> M B) : M B :=
  match m with
  | (log, inl e) => (log, inl e)
  | (log, inr a) => let '(log', r) := f a in (log ++ log', r)
  end.

Declare Scope builder_scope.
Delimit Scope builder_scope with builder.
Notation "x <- m ;; k" := (bind m (fun x => k))
  (at level 61, m at next level, right associativity) : builder_scope.
Notation "' p <- m ;; k" := (bind m (fun x => let p := x in k))
  (at level 61, p pattern, m at next level, right associativity) : builder_scope.
Notation "m ;;; k" := (bind m (fun _ => k))
  (at level 61, right associativity) : builder_scope.
Local Open Scope builder_scope.

(** A [for] loop that collects one result per element and stops at the
    first exception. *)
Fixpoint for_each {A B} (l : list A) (body : A -> M B) : M (list B) :=
  match l with
  | [] => ret []
  | a :: r => b <- body a ;; bs <- for_each r body ;; ret (b :: bs)
  end.

Definition log_of {A} (m : M A) : list Event := fst m.

Definition outcome {A} (m : M A) : Exn + A := snd m.

(* ================================================================= *)
(** ** The monthly calendar: [pd.date_range(start, end, freq='MS')] *)

Definition ts_eqb (a b : Timestamp) : bool :=
  (year a =? year b)%Z && (month a =? month b)%Z && (day a =? day b)%Z.

Definition ts_ltb (a b : Timestamp) : bool :=
  (year a <? year b)%Z
  || ((year a =? year b)%Z
      && ((month a <? month b)%Z
          || ((month a =? month b)%Z && (day a <? day b)%Z))).

Definition ts_leb (a b : Timestamp) : bool := ts_ltb a b || ts_eqb a b.

Definition ts_lt (a b : Timestamp) : Prop := ts_ltb a b = true.

(** The offset [MonthBegin]: the first day of the following month. *)
Definition MonthBegin (t : Timestamp) : Timestamp :=
  if (month t =? 12)%Z then mkTimestamp (year t + 1) 1 1
  else mkTimestamp (year t) (month t + 1) 1.

(** pandas' generator: [while cur <= end: yield cur; if cur == end: break;
    cur = offset.apply(cur)]. *)
Fixpoint generate_range (fuel : nat) (cur end_ : Timestamp) : list Timestamp :=
  match fuel with
  | O => []
  | S fuel' =>
      if ts_leb cur end_
      then cur :: (if ts_eqb cur end_ then []
                   else generate_range fuel' (MonthBegin cur) end_)
      else []
  end.

Definition month_ordinal (t : Timestamp) : Z := (12 * year t + (month t - 1))%Z.

Definition is_on_offset (t : Timestamp) : bool := (day t =? 1)%Z.

(** [offset.rollforward]: the date itself on a month start, the next month
    start otherwise. *)
Definition rollforward (t : Timestamp) : Timestamp :=
  if is_on_offset t then t else MonthBegin t.

(** [offset.rollback]: the date itself on a month start, the start of its
    month otherwise. *)
Definition rollback (t : Timestamp) : Timestamp :=
  if is_on_offset t then t else mkTimestamp (year t) (month t) 1.

(** [pd.date_range(start, end, freq='MS')] on two dates: pandas rolls the
    start forward when it is not a month start, otherwise the end back when
    it is not one, and then runs the generator. *)
Definition pd_date_range (start end_ : Timestamp) : list Timestamp :=
  let '(start, end_) :=
    if negb (is_on_offset start) then (rollforward start, end_)
    else if negb (is_on_offset end_) then (start, rollback end_)
         else (start, end_) in
  generate_range (S (Z.to_nat (month_ordinal end_ - month_ordinal start)))
                 start end_.

(* ================================================================= *)
(** ** Gridded fields and [crop_field] *)

Definition Qlt_bool (x y : Q) : bool := negb (Qle_bool y x).

(** Python's [x % m] for a positive modulus. *)
Definition Qmod (x m : Q) : Q := x - m * inject_Z (Qfloor (x / m)).

Inductive value : Type :=
| NaN
| Num (q : Q).

(** An entry of a coordinate axis: its label, and the position of its slice
    in the stored array.  Re-labelling, sorting and selecting an axis move
    the entries and never touch the array. *)
Record Coord : Type := mkCoord { label : Q; origin : nat }.

(** A dataset with the variable [tcg] over (time, latitude, longitude):
    one two-dimensional array per time step, read at
    (latitude origin, longitude origin). *)
Record Dataset : Type := mkDataset {
  longitude : list Coord;
  latitude : list Coord;
  tcg : list (nat -> nat -> value)
}.

(** The test of line 28. *)
Definition touches_meridian_180 (lon1 lon2 : Q) : bool :=
  (Qle_bool lon1 180 && Qle_bool (-180) lon2 && Qlt_bool lon2 lon1)
  || Qeq_bool lon1 (-180)
  || Qeq_bool lon2 180.

(** [(ds.longitude + 360) % 360] on one entry, in exact arithmetic: the
    label that line 29 computes when the stored one is a multiple of 1/64
    between -1024 and 1024. *)
Definition to_0_360 (c : Coord) : Coord :=
  mkCoord (Qmod (label c + 360) 360) (origin c).

Fixpoint insert_by_label (c : Coord) (l : list Coord) : list Coord :=
  match l with
  | [] => [c]
  | d :: r =>
      if Qle_bool (label c) (label d) then c :: l
      else d :: insert_by_label c r
  end.

(** [ds.sortby(ds.longitude)]: a stable ascending sort of the axis. *)
Definition sortby (l : list Coord) : list Coord :=
  fold_right insert_by_label [] l.

Fixpoint is_monotonic_increasing (l : list Coord) : bool :=
  match l with
  | a :: (b :: _) as r => Qle_bool (label a) (label b) && is_monotonic_increasing r
  | _ => true
  end.

Fixpoint is_monotonic_decreasing (l : list Coord) : bool :=
  match l with
  | a :: (b :: _) as r => Qle_bool (label b) (label a) && is_monotonic_decreasing r
  | _ => true
  end.

Inductive Side : Type := Left | Right.

Definition flip (s : Side) : Side :=
  match s with Left => Right | Right => Left end.

(** [numpy.searchsorted] on an ascending axis: the length of the prefix
    strictly below [v] (left) or not above [v] (right). *)
Fixpoint searchsorted (a : list Coord) (v : Q) (side : Side) : nat :=
  match a with
  | [] => O
  | x :: r =>
      if match side with
         | Left => Qlt_bool (label x) v
         | Right => Qle_bool (label x) v
         end
      then S (searchsorted r v side)
      else O
  end.

(** Positions of the entries labelled [v]. *)
Fixpoint get_loc (index : list Coord) (v : Q) (pos : nat) : list nat :=
  match index with
  | [] => []
  | x :: r =>
      if Qeq_bool (label x) v then pos :: get_loc r v (S pos)
      else get_loc r v (S pos)
  end.

Fixpoint contiguous (ps : list nat) : bool :=
  match ps with
  | p :: (q :: _) as r => Nat.eqb (S p) q && contiguous r
  | _ => true
  end.

(** pandas' [Index.get_slice_bound]: an insertion point on a monotonic
    index (on a descending one, through the reversed index with the side
    flipped); otherwise the label must occur, in one contiguous run. *)
Definition get_slice_bound (index : list Coord) (v : Q) (side : Side)
  : Exn + nat :=
  if is_monotonic_increasing index then inr (searchsorted index v side)
  else if is_monotonic_decreasing index
       then inr (List.length index - searchsorted (rev index) v (flip side))%nat
       else match get_loc index v O with
            | [] => inl KeyError
            | p :: ps =>
                if contiguous (p :: ps)
                then inr (match side with
                          | Left => p
                          | Right => S (last ps p)
                          end)
                else inl KeyError
            end.

(** [.sel(axis=slice(start, stop))]: the positions from the left bound of
    [start] up to the right bound of [stop]. *)
Definition sel_slice (index : list Coord) (start stop : Q)
  : Exn + list Coord :=
  match get_slice_bound index start Left, get_slice_bound index stop Right with
  | inr lo, inr hi => inr (firstn (hi - lo) (skipn lo index))
  | inl e, _ => inl e
  | _, inl e => inl e
  end.

Definition crop_field (var : Dataset) (lon1 lon2 lat1 lat2 : Q)
  : Exn + Dataset :=
  let ds := var in
  let '(ds, lon1, lon2) :=
    if touches_meridian_180 lon1 lon2 then
      let ds := mkDataset (map to_0_360 (longitude ds)) (latitude ds) (tcg ds) in
      let ds := mkDataset (sortby (longitude ds)) (latitude ds) (tcg ds) in
      let lon2 := if Qlt_bool lon2 0 then lon2 + 360 else lon2 in
      let lon1 := if Qlt_bool lon1 0 then lon1 + 360 else lon1 in
      (ds, lon1, lon2)
    else (ds, lon1, lon2) in
  match sel_slice (longitude ds) lon1 lon2,
        sel_slice (latitude ds) lat2 lat1 with
  | inr lons, inr lats => inr (mkDataset lons lats (tcg ds))
  | inl e, _ => inl e
  | _, inl e => inl e
  end.

(* ================================================================= *)
(** ** Series, frames and the repeat check *)

Definition value_eqb (a b : value) : bool :=
  match a, b with
  | Num x, Num y => Qeq_bool x y
  | _, _ => false
  end.

Definition isnull (v : value) : bool :=
  match v with NaN => true | Num _ => false end.

(** [a - b] on two cells: the difference of two numbers, in exact
    arithmetic, and NaN when either is missing. *)
Definition value_sub (a b : value) : value :=
  match a, b with
  | Num x, Num y => Num (x - y)
  | _, _ => NaN
  end.

(** A pandas Series over a datetime index: (label, value) in row order. *)
Definition Series : Type := list (Timestamp * value).

Definition index_of {A} (s : list (Timestamp * A)) : list Timestamp := map fst s.

Definition values_of {A} (s : list (Timestamp * A)) : list A := map snd s.


(** A frame: a datetime index and named columns of the index's length. *)
Record DataFrame : Type := mkDataFrame {
  df_index : list Timestamp;
  df_columns : list (string * list value)
}.

(** [s.shift(1)]: every value moves down one row, the first row is NaN. *)
Definition shift1 (vals : list value) : list value :=
  firstn (List.length vals) (NaN :: vals).

Fixpoint zip_with {A B C} (f : A -> B -> C) (l : list A) (l' : list B) : list C :=
  match l, l' with
  | a :: r, b :: r' => f a b :: zip_with f r r'
  | _, _ => []
  end.

(** [df.shift(1) == df], a boolean series on the index of [df]. *)
Definition repeats_mask (df : Series) : list (Timestamp * bool) :=
  combine (index_of df) (zip_with value_eqb (shift1 (values_of df)) (values_of df)).

(** [repeats[repeats].index] *)
Definition flagged (repeats : list (Timestamp * bool)) : list Timestamp :=
  index_of (filter snd repeats).

Definition check_consecutive_repeats (df : Series) (col : string) : M unit :=
  let repeats := repeats_mask df in
  if (0 <? List.length (filter snd repeats))%nat then
    emit (Print [Text "Consecutive values repeated found at"; Text col]) ;;;
    emit (Print [Labels (flagged repeats)])
  else ret tt.

(* ================================================================= *)
(** ** External collaborators and the data-access interface *)

(** The table of one climate index as [pd.read_table(..., header=None)]
    returns it: columns labelled 0 .. ncols-1, a line shorter than the
    first one being completed with NaN. *)
Record Table : Type := mkTable { ncols : nat; rows : list (list value) }.

(** A two-dimensional array over (latitude, longitude), read at positions. *)
Record DataArray (A : Type) : Type := mkDataArray {
  da_longitude : list Q;
  da_latitude : list Q;
  da_values : nat -> nat -> A
}.
Arguments mkDataArray {A}.
Arguments da_longitude {A}.
Arguments da_latitude {A}.
Arguments da_values {A}.

(** The arrays computed by statsmodels' STL. *)
Record STLArrays : Type := mkSTLArrays {
  season_values : list value;
  trend_values : list value;
  resid_values : list value
}.

Class Externals : Type := {
  (** the smoothing iterations of [STL(series).fit()] on the values *)
  stl_arrays : list value -> Exn + STLArrays;
  (** [pd.concat([a, b], axis=1)] *)
  pd_concat_axis1 : DataFrame -> DataFrame -> Exn + DataFrame;
  (** [a - b] for series whose indexes differ (outer alignment) *)
  pd_align_sub : Series -> Series -> Series;
  (** [xr.concat(datasets, dim='time')] *)
  xr_concat_time : list Dataset -> Exn + Dataset;
  (** [ds.where(cond)] *)
  xr_where : Dataset -> DataArray bool -> Exn + Dataset;
  (** [(np.abs(column) > mean + 7*std).sum() > 0] *)
  exceeds_mean_7std : list value -> bool;
  (** pandas' reading of a date string in none of the forms that
      [parse_datetime_string] covers *)
  parse_datetime_other : string -> Exn + Timestamp
}.

(** What each path holds; [inl] is the exception raised when reading it. *)
Record FileSystem : Type := mkFileSystem {
  read_table_at : string -> Exn + Table;
  read_csv_at : string -> Exn + DataFrame;
  open_dataset_at : string -> Exn + Dataset;
  open_dataarray_at : string -> Exn + DataArray value
}.

Definition pd_read_table (fs : FileSystem) (path : string) : M Table :=
  emit (ReadTable path) ;;; lift (read_table_at fs path).

Definition pd_read_csv (fs : FileSystem) (path : string) : M DataFrame :=
  emit (ReadCsv path) ;;; lift (read_csv_at fs path).

Definition xr_open_dataset (fs : FileSystem) (path : string) : M Dataset :=
  emit (OpenDataset path) ;;; lift (open_dataset_at fs path).

Definition xr_open_dataarray (fs : FileSystem) (path : string)
  : M (DataArray value) :=
  emit (OpenDataArray path) ;;; lift (open_dataarray_at fs path).

(** [os.path.join(a, b)] *)
Definition starts_with_sep (s : string) : bool :=
  match s with
  | String c _ => Ascii.eqb c "/"
  | EmptyString => false
  end.

Fixpoint ends_with_sep (s : string) : bool :=
  match s with
  | EmptyString => false
  | String c EmptyString => Ascii.eqb c "/"
  | String _ r => ends_with_sep r
  end.

Definition path_join (a b : string) : string :=
  if starts_with_sep b then b
  else if String.eqb a "" || ends_with_sep a then a ++ b
       else a ++ "/" ++ b.

(** [f'{n}'] for an integer. *)
Definition str_of_int (n : Z) : string := NilEmpty.string_of_int (Z.to_int n).

(** *** Reading the date strings of line 64 *)

Definition digit_of (c : ascii) : option Z :=
  let n := Z.of_nat (nat_of_ascii c) in
  if (48 <=? n)%Z && (n <=? 57)%Z then Some (n - 48)%Z else None.

Fixpoint number_from (acc : Z) (s : string) : option Z :=
  match s with
  | EmptyString => Some acc
  | String c r =>
      match digit_of c with
      | Some d => number_from (10 * acc + d)%Z r
      | None => None
      end
  end.

(** The value of a token made of digits. *)
Definition number (s : string) : option Z :=
  match s with
  | EmptyString => None
  | _ => number_from 0 s
  end.

(** The tokens between the dashes. *)
Fixpoint split_dash (s : string) : list string :=
  match s with
  | EmptyString => [EmptyString]
  | String c r =>
      if Ascii.eqb c "-" then EmptyString :: split_dash r
      else match split_dash r with
           | tok :: toks => String c tok :: toks
           | [] => [String c EmptyString]
           end
  end.

Definition is_leap (y : Z) : bool :=
  ((y mod 4 =? 0) && (negb (y mod 100 =? 0) || (y mod 400 =? 0)))%Z.

Definition days_in_month (y m : Z) : Z :=
  if (m =? 2)%Z then (if is_leap y then 29 else 28)
  else if ((m =? 4) || (m =? 6) || (m =? 9) || (m =? 11))%Z then 30
       else 31.

Definition valid_date (y m d : Z) : bool :=
  ((1 <=? m) && (m <=? 12) && (1 <=? d) && (d <=? days_in_month y m))%Z.

(** [Timestamp(s)] for a string [s] of three numbers between dashes, as
    line 64 writes them.
    - Four digits, two and two: ISO 8601, year-month-day, for the years
      that every nanosecond [Timestamp] holds, 1678 to 2261.
    - One or two digits first, then two and two: the string is not ISO and
      dateutil reads month-day-year when the first number is at most 12,
      day-month-year when it is 13 to 31; the two-digit year, below 50, is
      read in the 2000s; an impossible date is a [DateParseError].
    - Anything else (a year of three digits or of five and more, a sign, a
      four-digit year outside 1678..2261, a first number above 31) is left
      to [parse_datetime_other]: what pandas does there depends on its
      version and on the current date. *)
Definition parse_datetime_string {Ext : Externals} (s : string)
  : Exn + Timestamp :=
  match split_dash s with
  | [y; m; d] =>
      match number y, number m, number d with
      | Some a, Some b, Some c =>
          if ((String.length m =? 2) && (String.length d =? 2))%nat then
            if (String.length y =? 4)%nat then
              if (valid_date a b c && (1678 <=? a) && (a <=? 2261))%Z
              then inr (mkTimestamp a b c)
              else parse_datetime_other s
            else if ((String.length y <=? 2)%nat && (a <=? 31) && (c <? 50))%Z then
              if (a <=? 12)%Z then
                if valid_date (2000 + c) a b
                then inr (mkTimestamp (2000 + c) a b)
                else inl (DateParseError s)
              else
                if valid_date (2000 + c) b a
                then inr (mkTimestamp (2000 + c) b a)
                else inl (DateParseError s)
            else parse_datetime_other s
          else parse_datetime_other s
      | _, _, _ => parse_datetime_other s
      end
  | _ => parse_datetime_other s
  end.

(** The calendar-building step of the builders, line 64 and line 155:
    [pd.date_range(start=f'{first_year}-01-01', end=f'{last_year}-12-01',
    freq='MS')]. *)
Definition build_calendar {Ext : Externals} (first_year last_year : Z)
  : M (list Timestamp) :=
  start <- lift (parse_datetime_string (str_of_int first_year ++ "-01-01")) ;;
  end_ <- lift (parse_datetime_string (str_of_int last_year ++ "-12-01")) ;;
  ret (pd_date_range start end_).

(* ================================================================= *)
(** ** The steps of the builders *)

(** Lines 46-61 and 137-152: (min_lon, max_lon, min_lat, max_lat). *)
Definition basin_box (basin : string) : Exn + (Q * Q * Q * Q) :=
  if String.eqb basin "NWP" then inr (100, 180, 0, 40)
  else if String.eqb basin "NEP" then inr (-180, -75, 0, 40)
  else if String.eqb basin "NA" then inr (-100, 0, 0, 40)
  else if String.eqb basin "NI" then inr (45, 100, 0, 40)
  else if String.eqb basin "SP" then inr (135, -70, -40, 0)
  else if String.eqb basin "SI" then inr (35, 135, -40, 0)
  else if String.eqb basin "GLB" then inr (-181, 181, -40, 40)
  else inl (ValueError "Basin not recognized").

(** Line 73: [data[(data[0] == year)][month].values[0]]. *)
Definition table_lookup (data : Table) (year month : Z) : Exn + value :=
  if (ncols data =? 0)%nat then inl KeyError
  else
    let selected :=
      filter (fun row => value_eqb (nth 0 row NaN) (Num (inject_Z year)))
             (rows data) in
    if (0 <=? month)%Z && (month <? Z.of_nat (ncols data))%Z then
      match map (fun row => nth (Z.to_nat month) row NaN) selected with
      | [] => inl IndexError
      | v :: _ => inr v
      end
    else inl KeyError.

(** Lines 67-73: the column of one climate index over the calendar. *)
Definition load_index (fs : FileSystem) (indexes_path : string)
    (date_range : list Timestamp) (climate_index : string) : M (list value) :=
  let filename := path_join indexes_path (climate_index ++ ".txt") in
  data <- pd_read_table fs filename ;;
  for_each date_range
    (fun idx => lift (table_lookup data (year idx) (month idx))).

(** Lines 65-73: the frame of the climate indexes. *)
Definition load_indeces (fs : FileSystem) (indexes_path : string)
    (date_range : list Timestamp) (index_variables : list string)
  : M DataFrame :=
  columns <- for_each index_variables
               (fun climate_index =>
                  col <- load_index fs indexes_path date_range climate_index ;;
                  ret (climate_index, col)) ;;
  ret (mkDataFrame date_range columns).

Fixpoint select_rows {A} (mask : list bool) (l : list A) : list A :=
  match mask, l with
  | b :: mask', a :: l' =>
      if b then a :: select_rows mask' l' else select_rows mask' l'
  | _, _ => []
  end.

(** [df[df.index.isin(date_range)]] *)
Definition filter_isin (df : DataFrame) (date_range : list Timestamp)
  : DataFrame :=
  let mask := map (fun t => existsb (ts_eqb t) date_range) (df_index df) in
  mkDataFrame (select_rows mask (df_index df))
              (map (fun c => (fst c, select_rows mask (snd c))) (df_columns df)).

(** Lines 76-85: the cluster frames, joined one after the other; the
    result is unbound when there is no cluster variable. *)
Fixpoint load_clusters {Ext : Externals} (fs : FileSystem) (cluster_path : string)
    (date_range : list Timestamp) (cluster_variables : list string)
    (dataset_cluster : option DataFrame) : M (option DataFrame) :=
  match cluster_variables with
  | [] => ret dataset_cluster
  | var :: rest =>
      let filename := ("averages_" ++ var ++ ".csv")%string in
      let path := path_join cluster_path filename in
      temp <- pd_read_csv fs path ;;
      let temp := filter_isin temp date_range in
      joined <- match dataset_cluster with
                | None => ret temp
                | Some acc => lift (pd_concat_axis1 acc temp)
                end ;;
      load_clusters fs cluster_path date_range rest (Some joined)
  end.

(** [dataset[name] = vals]: the column is replaced where the name exists,
    and added last otherwise. *)
Definition set_column (df : DataFrame) (name : string) (vals : list value)
  : DataFrame :=
  if existsb (fun c => String.eqb (fst c) name) (df_columns df)
  then mkDataFrame (df_index df)
         (map (fun c => if String.eqb (fst c) name then (name, vals) else c)
              (df_columns df))
  else mkDataFrame (df_index df) (df_columns df ++ [(name, vals)]).

(** Lines 91-92. *)
Definition add_month_col (dataset : DataFrame) : DataFrame :=
  set_column dataset "month"
    (map (fun t => Num (inject_Z (month t))) (df_index dataset)).

(** [dataset[col]] as the audit uses it: a series when one column bears the
    name; with several the selection is a frame, whose test in an [if]
    raises. *)
Definition getitem (dataset : DataFrame) (col : string) : Exn + Series :=
  match filter (fun c => String.eqb (fst c) col) (df_columns dataset) with
  | [] => inl KeyError
  | [c] => inr (combine (df_index dataset) (snd c))
  | _ => inl (ValueError "The truth value of a Series is ambiguous")
  end.

(** Lines 96-102, the body of the audit loop. *)
Definition audit_column {Ext : Externals} (dataset : DataFrame) (col : string)
  : M unit :=
  column <- lift (getitem dataset col) ;;
  (if (0 <? List.length (filter isnull (values_of column)))%nat
   then emit (Print [Text "Warning: Missing values in"; Text col])
   else ret tt) ;;;
  check_consecutive_repeats column col ;;;
  (if exceeds_mean_7std (values_of column)
   then emit (Print [Text "Warning: Values above the average+7*std in"; Text col])
   else ret tt).

(** Lines 95-102. *)
Definition audit {Ext : Externals} (dataset : DataFrame) : M unit :=
  for_each (map fst (df_columns dataset)) (audit_column dataset) ;;; ret tt.

(** [np.arange(start, start + n, 1)] *)
Fixpoint arange (start : Z) (n : nat) : list Z :=
  match n with
  | O => []
  | S n' => start :: arange (start + 1) n'
  end.

(** Lines 105-106: the yearly files, opened in year order, then joined. *)
Definition open_target {Ext : Externals} (fs : FileSystem) (target_path : string)
    (first_year last_year : Z) : M Dataset :=
  let years := arange first_year (Z.to_nat (last_year + 1 - first_year)) in
  datasets <- for_each years
                (fun year =>
                   xr_open_dataset fs
                     (target_path ++ "_" ++ str_of_int year ++ ".nc")%string) ;;
  lift (xr_concat_time datasets).

(** [mask == x] *)
Definition eq_scalar (mask : DataArray value) (x : Q) : DataArray bool :=
  mkDataArray (da_longitude mask) (da_latitude mask)
    (fun i j => value_eqb (da_values mask i j) (Num x)).

(** Lines 107-114 and 201-208. *)
Definition crop_and_mask {Ext : Externals} (fs : FileSystem) (basin : string)
    (tcg_ds_or : Dataset) (min_lon max_lon min_lat max_lat : Q) : M Dataset :=
  if String.eqb basin "NEP" || String.eqb basin "NA" then
    tcg_ds <- lift (crop_field tcg_ds_or min_lon max_lon min_lat max_lat) ;;
    mask <- xr_open_dataarray fs (basin ++ "_mask.nc")%string ;;
    lift (xr_where tcg_ds (eq_scalar mask 1))
  else if negb (String.eqb basin "GLB") then
    lift (crop_field tcg_ds_or min_lon max_lon min_lat max_lat)
  else ret tcg_ds_or.

(** A sum that skips NaN, in exact arithmetic: the sum that line 116
    computes when the cells are whole numbers with sums below 2^24. *)
Definition nansum (l : list value) : Q :=
  fold_right (fun v acc => match v with Num q => q + acc | NaN => acc end) 0 l.

(** [.astype(int)], a conversion to int64: truncation towards zero, and
    the least int64 for a value that no int64 holds. *)
Definition astype_int (q : Q) : Z :=
  let z := if Qlt_bool q 0 then Qceiling q else Qfloor q in
  if ((-9223372036854775808 <=? z) && (z <=? 9223372036854775807))%Z
  then z else (-9223372036854775808)%Z.

(** [tcg_ds.tcg.sum(dim=['latitude', 'longitude']).values.astype(int)] *)
Definition sum_lat_lon (ds : Dataset) : list Z :=
  map (fun slice =>
         astype_int
           (nansum (flat_map (fun la => map (fun lo => slice (origin la) (origin lo))
                                            (longitude ds))
                             (latitude ds))))
      (tcg ds).

(** Values placed on an index; the lengths must agree. *)
Definition pd_Series (vals : list value) (index : list Timestamp)
  : Exn + Series :=
  if (List.length vals =? List.length index)%nat
  then inr (combine index vals)
  else inl (ValueError "Length of values does not match length of index").

(** Lines 115-116: [target['tcg']] on the calendar. *)
Definition make_target (date_range : list Timestamp) (counts : list Z)
  : Exn + Series :=
  pd_Series (map (fun n => Num (inject_Z n)) counts) date_range.

(** The result of [STL(endog).fit()]: statsmodels puts each computed array
    on the index of [endog]. *)
Record DecomposeResult : Type := mkDecomposeResult {
  seasonal : Series;
  trend : Series;
  resid : Series
}.

Definition STL_fit {Ext : Externals} (endog : Series) : M DecomposeResult :=
  arrays <- lift (stl_arrays (values_of endog)) ;;
  season <- lift (pd_Series (season_values arrays) (index_of endog)) ;;
  trend <- lift (pd_Series (trend_values arrays) (index_of endog)) ;;
  resid <- lift (pd_Series (resid_values arrays) (index_of endog)) ;;
  ret (mkDecomposeResult season trend resid).

Fixpoint index_equals (a b : list Timestamp) : bool :=
  match a, b with
  | [], [] => true
  | x :: a', y :: b' => ts_eqb x y && index_equals a' b'
  | _, _ => false
  end.

(** [a - b] on series: row by row when the indexes are equal. *)
Definition series_sub {Ext : Externals} (a b : Series) : Series :=
  if index_equals (index_of a) (index_of b)
  then combine (index_of a) (zip_with value_sub (values_of a) (values_of b))
  else pd_align_sub a b.

(** A frame with one named column ([to_frame()], and [target]). *)
Record Column : Type := mkColumn { col_name : string; col_series : Series }.

(** The tuple returned by a builder. *)
Inductive Output : Type :=
| Pair (dataset : DataFrame) (target : Column)
| Quad (dataset : DataFrame) (second third fourth : Column).

(** Line 88 and line 182: the merge with the frame of the indexes. *)
Definition merge_features {Ext : Externals} (dataset_cluster : option DataFrame)
    (indeces : DataFrame) : M DataFrame :=
  match dataset_cluster with
  | None => raise (UnboundLocalError "dataset_cluster")
  | Some clusters => lift (pd_concat_axis1 clusters indeces)
  end.

(** Lines 119-132: the tuple returned by [build_dataset], by flags. *)
Definition decompose_target {Ext : Externals} (dataset : DataFrame) (target : Series)
    (deseasonalize detrend : bool) : M Output :=
  if deseasonalize then
    decomposition <- STL_fit target ;;
    let deseason_target := series_sub target (seasonal decomposition) in
    ret (Quad dataset (mkColumn "tcg" target)
              (mkColumn "tcg" deseason_target)
              (mkColumn "season" (seasonal decomposition)))
  else if detrend then
    decomposition <- STL_fit target ;;
    let detrend_target := series_sub target (trend decomposition) in
    ret (Quad dataset (mkColumn "tcg" target)
              (mkColumn "tcg" detrend_target)
              (mkColumn "trend" (trend decomposition)))
  else ret (Pair dataset (mkColumn "tcg" target)).

Definition build_dataset {Ext : Externals} (fs : FileSystem) (basin : string)
    (cluster_variables index_variables : list string)
    (cluster_path indexes_path target_path : string)
    (first_year last_year : Z) (deseasonalize detrend month_col : bool)
  : M Output :=
  '(min_lon, max_lon, min_lat, max_lat) <- lift (basin_box basin) ;;
  date_range <- build_calendar first_year last_year ;;
  df_indeces <- load_indeces fs indexes_path date_range index_variables ;;
  dataset_cluster <-
    load_clusters fs cluster_path date_range cluster_variables None ;;
  dataset <- merge_features dataset_cluster df_indeces ;;
  let dataset := if month_col then add_month_col dataset else dataset in
  audit dataset ;;;
  tcg_ds_or <- open_target fs target_path first_year last_year ;;
  tcg_ds <- crop_and_mask fs basin tcg_ds_or min_lon max_lon min_lat max_lat ;;
  target <- lift (make_target date_range (sum_lat_lon tcg_ds)) ;;
  decompose_target dataset target deseasonalize detrend.

(** Lines 156-167: the indexes, each replaced by the residual of its
    decomposition. *)
Definition load_residual_indeces {Ext : Externals} (fs : FileSystem)
    (indexes_path : string) (date_range : list Timestamp)
    (index_variables : list string) : M DataFrame :=
  columns <- for_each index_variables
               (fun climate_index =>
                  col <- load_index fs indexes_path date_range climate_index ;;
                  decomp_index <- STL_fit (combine date_range col) ;;
                  ret (climate_index, values_of (resid decomp_index))) ;;
  ret (mkDataFrame date_range columns).

Definition build_dataset_noTS {Ext : Externals} (fs : FileSystem) (basin : string)
    (cluster_variables index_variables : list string)
    (cluster_path indexes_path target_path : string)
    (first_year last_year : Z) (month_col : bool)
  : M Output :=
  '(min_lon, max_lon, min_lat, max_lat) <- lift (basin_box basin) ;;
  date_range <- build_calendar first_year last_year ;;
  df_residual_indeces <-
    load_residual_indeces fs indexes_path date_range index_variables ;;
  dataset_cluster <-
    load_clusters fs cluster_path date_range cluster_variables None ;;
  dataset <- merge_features dataset_cluster df_residual_indeces ;;
  let dataset := if month_col then add_month_col dataset else dataset in
  audit dataset ;;;
  tcg_ds_or <- open_target fs target_path first_year last_year ;;
  tcg_ds <- crop_and_mask fs basin tcg_ds_or min_lon max_lon min_lat max_lat ;;
  target <- lift (make_target date_range (sum_lat_lon tcg_ds)) ;;
  decomposition <- STL_fit target ;;
  ret (Quad dataset (mkColumn "resid" (resid decomposition))
            (mkColumn "trend" (trend decomposition))
            (mkColumn "season" (seasonal decomposition))).

(* ================================================================= *)
(** ** Specification vocabulary *)

(** The calendar the two years denote: the month starts from January of
    [first_year] to December of [last_year]. *)
Definition calendar_of (first_year last_year : Z) : list Timestamp :=
  pd_date_range (mkTimestamp first_year 1 1) (mkTimestamp last_year 12 1).

(** The years whose date strings are ISO 8601 within the range of every
    nanosecond [Timestamp]. *)
Definition iso_year (y : Z) : Prop := (1678 <= y <= 2261)%Z.

(** The closed interval test on a label. *)
Definition in_range (lo hi : Q) (c : Coord) : bool :=
  Qle_bool lo (label c) && Qle_bool (label c) hi.

Definition count (p : Coord -> bool) (l : list Coord) : nat :=
  List.length (filter p l).

(** The native ordering of the latitude axis, North to South: descending
    and not constant. *)
Definition north_to_south (lats : list Coord) : Prop :=
  is_monotonic_decreasing lats = true /\ is_monotonic_increasing lats = false.

(** A field on a 30-degree grid of the whole globe, one time step. *)
Definition sample_globe : Dataset :=
  mkDataset
    [mkCoord (-180) 0; mkCoord (-150) 1; mkCoord (-120) 2; mkCoord (-90) 3;
     mkCoord (-75) 4; mkCoord (-30) 5; mkCoord 0 6; mkCoord 50 7;
     mkCoord 90 8; mkCoord 120 9; mkCoord 150 10]
    [mkCoord 60 0; mkCoord 30 1; mkCoord 0 2; mkCoord (-30) 3; mkCoord (-60) 4]
    [fun i j => Num (inject_Z (Z.of_nat (i + j)))].

(** An exception that reports a missing (year, month) cell. *)
Definition missing_data_point (e : Exn) : Prop := e = KeyError \/ e = IndexError.

(** The table has a row for [year] and a column labelled [month]. *)
Definition cell_present (data : Table) (year month : Z) : Prop :=
  (exists row, In row (rows data) /\
               value_eqb (nth 0 row NaN) (Num (inject_Z year)) = true) /\
  (0 <= month < Z.of_nat (ncols data))%Z.

(** The path of the table of a climate index (line 67). *)
Definition index_file (indexes_path climate_index : string) : string :=
  path_join indexes_path (climate_index ++ ".txt").

(** *** A small world to run the builders in

    Stand-ins for the libraries: a decomposition with a constant seasonal
    part, concatenation of frames that share their index, concatenation of
    datasets that share their grid, and a positional mask. *)
Definition sample_stl (vals : list value) : Exn + STLArrays :=
  inr (mkSTLArrays (map (fun _ => Num 1) vals)
                   (map (fun v => value_sub v (Num 1)) vals)
                   (map (fun _ => Num 0) vals)).

Definition sample_concat_axis1 (a b : DataFrame) : Exn + DataFrame :=
  if index_equals (df_index a) (df_index b)
  then inr (mkDataFrame (df_index a) (df_columns a ++ df_columns b))
  else inl (ValueError "indexes differ").

Definition sample_concat_time (l : list Dataset) : Exn + Dataset :=
  match l with
  | [] => inl (ValueError "must supply at least one object to concatenate")
  | d :: _ => inr (mkDataset (longitude d) (latitude d) (flat_map tcg l))
  end.

Definition sample_where (ds : Dataset) (cond : DataArray bool) : Exn + Dataset :=
  inr (mkDataset (longitude ds) (latitude ds)
         (map (fun slice i j => if da_values cond i j then slice i j else NaN)
              (tcg ds))).

#[local] Instance sample_externals : Externals := {
  stl_arrays := sample_stl;
  pd_concat_axis1 := sample_concat_axis1;
  pd_align_sub := fun a _ => a;
  xr_concat_time := sample_concat_time;
  xr_where := sample_where;
  exceeds_mean_7std := fun _ => false;
  parse_datetime_other := fun s => inl (DateParseError s)
}.

(** One index table (years 2000 and 2001), one cluster file, the event
    counts of the year 2000 on the sample globe, and a mask. *)
Definition sample_table : Table :=
  mkTable 13
    [Num 2000 :: map (fun m => Num (inject_Z m)) (arange 1 12);
     Num 2001 :: map (fun m => Num (inject_Z (m + 12))) (arange 1 12)].

Definition sample_clusters : DataFrame :=
  mkDataFrame (calendar_of 1999 2000)
    [("sst_cluster1"%string, map (fun m => Num (inject_Z (m * m))) (arange 1 24))].

Definition sample_year : Dataset :=
  mkDataset (longitude sample_globe) (latitude sample_globe)
    (map (fun m i j => Num (inject_Z (m + Z.of_nat i + Z.of_nat j))) (arange 1 12)).

Definition sample_fs : FileSystem :=
  mkFileSystem
    (fun path => if String.eqb path "indexes/nino34.txt" then inr sample_table
                 else inl (IOError path))
    (fun path => if String.eqb path "clusters/averages_sst.csv" then inr sample_clusters
                 else inl (IOError path))
    (fun path => if String.eqb path "tcg_2000.nc" then inr sample_year
                 else inl (IOError path))
    (fun path => if String.eqb path "NA_mask.nc"
                 then inr (mkDataArray [] [] (fun i j => Num (inject_Z (Z.of_nat (i mod 2)))))
                 else inl (IOError path)).

(** An index table whose line of 1999 stops after February, as
    [read_table] returns it, and a file system that holds it. *)
Definition sample_short_line : list value := [Num 1999; Num 1; Num 2].

Definition sample_short_table : Table :=
  mkTable 13
    [Num 1998 :: map (fun m => Num (inject_Z m)) (arange 1 12);
     sample_short_line].

Definition sample_short_fs : FileSystem :=
  mkFileSystem
    (fun path => if String.eqb path "indexes/nino34.txt" then inr sample_short_table
                 else inl (IOError path))
    (fun path => inl (IOError path))
    (fun path => inl (IOError path))
    (fun path => inl (IOError path)).

(** The month start that lies [k] months after January of [first_year]. *)
Definition nth_month (first_year k : Z) : Timestamp :=
  mkTimestamp (first_year + k / 12) (k mod 12 + 1) 1.

(** *** Further vocabulary and samples *)

(** The sample globe with its latitude axis stored South to North. *)
Definition sample_south_up : Dataset :=
  mkDataset (longitude sample_globe) (rev (latitude sample_globe))
            (tcg sample_globe).

(** A field whose latitude axis is in no order. *)
Definition sample_shuffled : Dataset :=
  mkDataset (longitude sample_globe)
            [mkCoord 30 1; mkCoord 60 0; mkCoord (-30) 3; mkCoord 0 2]
            (tcg sample_globe).

(** The comparison of every value with its predecessor, the first one being
    compared with [prev]. *)
Fixpoint pairwise_eqb (prev : value) (vals : list value) : list bool :=
  match vals with
  | [] => []
  | v :: r => value_eqb prev v :: pairwise_eqb v r
  end.

(** The cells that the sums of line 116 read are missing or whole numbers of
    magnitude at most [bound], few enough for no sum of them to exceed 2^24
    in magnitude: such sums are exact in single and in double precision, in
    whatever order the cells are added. *)
Definition whole_cell (bound : Z) (v : value) : Prop :=
  match v with
  | NaN => True
  | Num q => exists n : Z, q == inject_Z n /\ (- bound <= n <= bound)%Z
  end.

Definition exact_sums (ds : Dataset) (bound : Z) : Prop :=
  (0 <= bound)%Z /\
  (forall slice la lo,
      In slice (tcg ds) -> In la (latitude ds) -> In lo (longitude ds) ->
      whole_cell bound (slice (origin la) (origin lo))) /\
  (Z.of_nat (List.length (latitude ds) * List.length (longitude ds)) * bound
   <= 16777216)%Z.

(** The columns of a frame that bear a name. *)
Definition columns_named (df : DataFrame) (name : string)
  : list (string * list value) :=
  filter (fun c => String.eqb (fst c) name) (df_columns df).

Definition is_print (ev : Event) : Prop :=
  match ev with
  | Print _ => True
  | _ => False
  end.

(** A frame whose columns all have the length of its index. *)
Definition rectangular (df : DataFrame) : Prop :=
  Forall (fun c => List.length (snd c) = List.length (df_index df))
         (df_columns df).

(** The paths the builders form: lines 77-78, line 106 and line 109. *)
Definition cluster_file (cluster_path var : string) : string :=
  path_join cluster_path ("averages_" ++ var ++ ".csv").

Definition year_file (target_path : string) (year : Z) : string :=
  (target_path ++ "_" ++ str_of_int year ++ ".nc")%string.

Definition mask_file (basin : string) : string := (basin ++ "_mask.nc")%string.

(** The years of line 105. *)
Definition years_of (first_year last_year : Z) : list Z :=
  arange first_year (Z.to_nat (last_year + 1 - first_year)).

(** A frame with two columns of one name. *)
Definition sample_twice : DataFrame :=
  mkDataFrame [mkTimestamp 2000 1 1]
    [("sst"%string, [Num 1]); ("sst"%string, [Num 2])].

(* ================================================================= *)
(** * Properties *)

(** ** Comparisons on rationals *)

Lemma Qlt_bool_iff (x y : Q) : Qlt_bool x y = true <-> x < y.
Proof.
  unfold Qlt_bool. rewrite negb_true_iff.
  split; intro H.
  - apply Qnot_le_lt. intro Hle. apply Qle_bool_iff in Hle. congruence.
  - destruct (Qle_bool y x) eqn:E; [|reflexivity].
    apply Qle_bool_iff in E. lra.
Qed.

Lemma Qle_bool_false (x y : Q) : Qle_bool x y = false <-> y < x.
Proof.
  rewrite <- Qlt_bool_iff. unfold Qlt_bool. now rewrite negb_true_iff.
Qed.

Lemma Qlt_bool_false (x y : Q) : Qlt_bool x y = false <-> y <= x.
Proof.
  unfold Qlt_bool. rewrite negb_false_iff. apply Qle_bool_iff.
Qed.

Ltac qreflect :=
  repeat match goal with
    | H : Qle_bool _ _ = true |- _ => apply Qle_bool_iff in H
    | H : Qle_bool _ _ = false |- _ => apply Qle_bool_false in H
    | H : Qlt_bool _ _ = true |- _ => apply Qlt_bool_iff in H
    | H : Qlt_bool _ _ = false |- _ => apply Qlt_bool_false in H
    | H : Qeq_bool _ _ = true |- _ => apply Qeq_bool_iff in H
    | H : Qeq_bool _ _ = false |- _ => apply Qeq_bool_neq in H
    | H : _ && _ = true |- _ => apply andb_true_iff in H; destruct H
    end.

Lemma Qmod_bounds (x m : Q) : 0 < m -> 0 <= Qmod x m /\ Qmod x m < m.
Proof.
  intro Hm. unfold Qmod.
  pose proof (Qfloor_le (x / m)) as Hlo.
  pose proof (Qlt_floor (x / m)) as Hhi.
  rewrite inject_Z_plus in Hhi.
  set (k := inject_Z (Qfloor (x / m))) in *.
  assert (Hx : x == m * (x / m)) by (field; lra).
  split.
  - assert (m * k <= m * (x / m)) by (apply Qmult_le_l; assumption). lra.
  - assert (m * (x / m) < m * (k + inject_Z 1)) by (apply Qmult_lt_l; assumption).
    change (inject_Z 1) with 1 in *. lra.
Qed.

Lemma Qmod_compat (x y m : Q) : x == y -> Qmod x m == Qmod y m.
Proof.
  intro H. unfold Qmod.
  assert (Hf : Qfloor (x / m) = Qfloor (y / m))
    by (apply Qfloor_comp; now rewrite H).
  rewrite Hf, H. reflexivity.
Qed.

Lemma in_range_iff lo hi c :
  in_range lo hi c = true <-> lo <= label c /\ label c <= hi.
Proof.
  unfold in_range. now rewrite andb_true_iff, !Qle_bool_iff.
Qed.

(** ** Monotonic axes and label slices *)

Lemma increasing_tail a r :
  is_monotonic_increasing (a :: r) = true -> is_monotonic_increasing r = true.
Proof. destruct r; simpl; [reflexivity|]. intro H. now apply andb_true_iff in H. Qed.

Lemma increasing_head a r :
  is_monotonic_increasing (a :: r) = true -> Forall (fun d => label a <= label d) r.
Proof.
  revert a. induction r as [|b r IH]; intros a H; constructor.
  - simpl in H. qreflect. assumption.
  - assert (Hb := IH b (increasing_tail _ _ H)).
    simpl in H. qreflect.
    eapply Forall_impl; [|exact Hb]. simpl. intros; lra.
Qed.

Lemma decreasing_tail a r :
  is_monotonic_decreasing (a :: r) = true -> is_monotonic_decreasing r = true.
Proof. destruct r; simpl; [reflexivity|]. intro H. now apply andb_true_iff in H. Qed.

Lemma decreasing_head a r :
  is_monotonic_decreasing (a :: r) = true -> Forall (fun d => label d <= label a) r.
Proof.
  revert a. induction r as [|b r IH]; intros a H; constructor.
  - simpl in H. qreflect. assumption.
  - assert (Hb := IH b (decreasing_tail _ _ H)).
    simpl in H. qreflect.
    eapply Forall_impl; [|exact Hb]. simpl. intros; lra.
Qed.

Lemma filter_none {A} (p : A -> bool) l :
  Forall (fun x => p x = false) l -> filter p l = [].
Proof. induction 1; simpl; [reflexivity|]. now rewrite H. Qed.

Lemma searchsorted_left_zero l v :
  Forall (fun d => v <= label d) l -> searchsorted l v Left = O.
Proof.
  destruct 1; simpl; [reflexivity|].
  destruct (Qlt_bool (label x) v) eqn:E; [|reflexivity]. qreflect. lra.
Qed.

Lemma slice_increasing l start stop :
  is_monotonic_increasing l = true ->
  firstn (searchsorted l stop Right - searchsorted l start Left)
         (skipn (searchsorted l start Left) l)
  = filter (in_range start stop) l.
Proof.
  induction l as [|x r IH]; intro Hs; [reflexivity|].
  pose proof (increasing_head _ _ Hs) as Hh.
  specialize (IH (increasing_tail _ _ Hs)).
  cbn [searchsorted filter]. unfold in_range at 1.
  destruct (Qle_bool (label x) stop) eqn:E2.
  - destruct (Qlt_bool (label x) start) eqn:E1; qreflect.
    + replace (Qle_bool start (label x)) with false
        by (symmetry; apply Qle_bool_false; lra).
      simpl. exact IH.
    + replace (Qle_bool start (label x)) with true
        by (symmetry; apply Qle_bool_iff; lra).
      simpl. f_equal.
      rewrite searchsorted_left_zero in IH.
      * now rewrite Nat.sub_0_r in IH.
      * eapply Forall_impl; [|exact Hh]. simpl; intros; lra.
  - rewrite andb_false_r. qreflect.
    rewrite filter_none.
    + now destruct (Qlt_bool (label x) start).
    + eapply Forall_impl; [|exact Hh]. simpl. intros d Hd.
      unfold in_range. replace (Qle_bool (label d) stop) with false.
      * apply andb_false_r.
      * symmetry. apply Qle_bool_false. lra.
Qed.


Lemma searchsorted_le_length a v s : (searchsorted a v s <= List.length a)%nat.
Proof.
  induction a as [|x r IH]; simpl; [lia|].
  destruct s; [destruct (Qlt_bool (label x) v)|destruct (Qle_bool (label x) v)]; lia.
Qed.

Lemma searchsorted_app a b v s :
  searchsorted (a ++ b) v s =
  if Nat.eqb (searchsorted a v s) (List.length a)
  then (List.length a + searchsorted b v s)%nat
  else searchsorted a v s.
Proof.
  induction a as [|x r IH]; simpl; [reflexivity|].
  destruct (match s with
            | Left => Qlt_bool (label x) v
            | Right => Qle_bool (label x) v
            end); [|reflexivity].
  rewrite IH. simpl.
  now destruct (Nat.eqb (searchsorted r v s) (List.length r)).
Qed.

Lemma searchsorted_all a v s :
  Forall (fun c => match s with
                   | Left => Qlt_bool (label c) v
                   | Right => Qle_bool (label c) v
                   end = true) a ->
  searchsorted a v s = List.length a.
Proof. induction 1; simpl; [reflexivity|]. rewrite H. now f_equal. Qed.

Lemma count_none p l : Forall (fun x => p x = false) l -> count p l = O.
Proof. intro H. unfold count. now rewrite filter_none. Qed.

Lemma reversed_bound_decreasing l v s :
  is_monotonic_decreasing l = true ->
  (List.length l - searchsorted (rev l) v (flip s))%nat =
  count (fun c => match s with
                  | Left => Qlt_bool v (label c)
                  | Right => Qle_bool v (label c)
                  end) l.
Proof.
  induction l as [|x r IH]; intro Hs; [reflexivity|].
  pose proof (decreasing_head _ _ Hs) as Hh.
  specialize (IH (decreasing_tail _ _ Hs)).
  cbn [rev]. rewrite searchsorted_app. cbn [searchsorted List.length].
  unfold count in *. cbn [filter].
  pose proof (searchsorted_le_length (rev r) v (flip s)) as Hle.
  rewrite length_rev in *.
  destruct s; cbn [flip] in *.
  - (* left bound: entries strictly above v come first *)
    destruct (Qle_bool (label x) v) eqn:E.
    + replace (Qlt_bool v (label x)) with false
        by (symmetry; apply Qlt_bool_false; qreflect; lra).
      rewrite searchsorted_all.
      * rewrite length_rev, Nat.eqb_refl.
        fold (count (fun c => Qlt_bool v (label c)) r).
        rewrite count_none; [lia|].
        eapply Forall_impl; [|exact Hh]. simpl. intros d Hd.
        apply Qlt_bool_false. qreflect. lra.
      * apply Forall_rev. eapply Forall_impl; [|exact Hh]. simpl. intros d Hd.
        apply Qle_bool_iff. qreflect. lra.
    + replace (Qlt_bool v (label x)) with true
        by (symmetry; apply Qlt_bool_iff; qreflect; lra).
      cbn [List.length]. rewrite <- IH.
      destruct (Nat.eqb (searchsorted (rev r) v Right) (List.length r)) eqn:En.
      * apply Nat.eqb_eq in En. lia.
      * lia.
  - destruct (Qlt_bool (label x) v) eqn:E.
    + replace (Qle_bool v (label x)) with false
        by (symmetry; apply Qle_bool_false; qreflect; lra).
      rewrite searchsorted_all.
      * rewrite length_rev, Nat.eqb_refl.
        fold (count (fun c => Qle_bool v (label c)) r).
        rewrite count_none; [lia|].
        eapply Forall_impl; [|exact Hh]. simpl. intros d Hd.
        apply Qle_bool_false. qreflect. lra.
      * apply Forall_rev. eapply Forall_impl; [|exact Hh]. simpl. intros d Hd.
        apply Qlt_bool_iff. qreflect. lra.
    + replace (Qle_bool v (label x)) with true
        by (symmetry; apply Qle_bool_iff; qreflect; lra).
      cbn [List.length]. rewrite <- IH.
      destruct (Nat.eqb (searchsorted (rev r) v Left) (List.length r)) eqn:En.
      * apply Nat.eqb_eq in En. lia.
      * lia.
Qed.

Lemma slice_decreasing_count l start stop :
  is_monotonic_decreasing l = true ->
  firstn (count (fun c => Qle_bool stop (label c)) l
          - count (fun c => Qlt_bool start (label c)) l)
         (skipn (count (fun c => Qlt_bool start (label c)) l) l)
  = filter (in_range stop start) l.
Proof.
  induction l as [|x r IH]; intro Hs; [reflexivity|].
  pose proof (decreasing_head _ _ Hs) as Hh.
  specialize (IH (decreasing_tail _ _ Hs)).
  unfold count in *. cbn [filter]. unfold in_range at 1.
  destruct (Qle_bool stop (label x)) eqn:E2; cbn [andb].
  - destruct (Qlt_bool start (label x)) eqn:E1; qreflect.
    + replace (Qle_bool (label x) start) with false
        by (symmetry; apply Qle_bool_false; lra).
      simpl. exact IH.
    + replace (Qle_bool (label x) start) with true
        by (symmetry; apply Qle_bool_iff; lra).
      fold (count (fun c => Qlt_bool start (label c)) r) in *.
      rewrite count_none in *.
      * simpl. f_equal. now rewrite Nat.sub_0_r in IH.
      * eapply Forall_impl; [|exact Hh]. simpl. intros d Hd.
        apply Qlt_bool_false. lra.
      * eapply Forall_impl; [|exact Hh]. simpl. intros d Hd.
        apply Qlt_bool_false. lra.
  - qreflect.
    fold (count (fun c => Qle_bool stop (label c)) r).
    rewrite count_none.
    + rewrite (filter_none (in_range stop start)).
      * now destruct (Qlt_bool start (label x)).
      * eapply Forall_impl; [|exact Hh]. simpl. intros d Hd.
        unfold in_range. replace (Qle_bool stop (label d)) with false; [reflexivity|].
        symmetry. apply Qle_bool_false. lra.
    + eapply Forall_impl; [|exact Hh]. simpl. intros d Hd.
      apply Qle_bool_false. lra.
Qed.

Lemma sel_slice_increasing index start stop :
  is_monotonic_increasing index = true ->
  sel_slice index start stop = inr (filter (in_range start stop) index).
Proof.
  intro H. unfold sel_slice, get_slice_bound. rewrite H.
  now rewrite slice_increasing.
Qed.

Lemma sel_slice_decreasing index start stop :
  is_monotonic_increasing index = false ->
  is_monotonic_decreasing index = true ->
  sel_slice index start stop = inr (filter (in_range stop start) index).
Proof.
  intros Hi Hd. unfold sel_slice, get_slice_bound. rewrite Hi, Hd.
  rewrite (reversed_bound_decreasing index start Left Hd).
  rewrite (reversed_bound_decreasing index stop Right Hd).
  now rewrite slice_decreasing_count.
Qed.

Lemma insert_by_label_In c d l : In d (insert_by_label c l) <-> d = c \/ In d l.
Proof.
  induction l as [|x r IH]; simpl.
  - intuition congruence.
  - destruct (Qle_bool (label c) (label x)); simpl; rewrite ?IH; intuition congruence.
Qed.

Lemma sortby_In d l : In d (sortby l) <-> In d l.
Proof.
  induction l as [|x r IH]; simpl; [tauto|].
  rewrite insert_by_label_In, IH. intuition congruence.
Qed.

Lemma insert_by_label_increasing c l :
  is_monotonic_increasing l = true ->
  is_monotonic_increasing (insert_by_label c l) = true.
Proof.
  induction l as [|x r IH]; intro Hs; [reflexivity|].
  cbn [insert_by_label].
  destruct (Qle_bool (label c) (label x)) eqn:E.
  - cbn [is_monotonic_increasing]. rewrite E. exact Hs.
  - specialize (IH (increasing_tail _ _ Hs)).
    destruct r as [|y r]; cbn [insert_by_label] in *.
    + simpl. rewrite andb_true_r. apply Qle_bool_iff. qreflect. lra.
    + destruct (Qle_bool (label c) (label y)) eqn:E'.
      * cbn [is_monotonic_increasing] in *. rewrite E'.
        apply andb_true_iff in Hs. destruct Hs as [_ Hs].
        rewrite Hs, andb_true_r. apply Qle_bool_iff. qreflect. lra.
      * cbn [is_monotonic_increasing] in Hs |- *.
        apply andb_true_iff in Hs. destruct Hs as [Hxy _].
        rewrite Hxy. exact IH.
Qed.

Lemma sortby_increasing l : is_monotonic_increasing (sortby l) = true.
Proof.
  induction l as [|x r IH]; [reflexivity|].
  simpl. now apply insert_by_label_increasing.
Qed.


Lemma crop_field_rebased var lon1 lon2 lat1 lat2 :
  touches_meridian_180 lon1 lon2 = true ->
  north_to_south (latitude var) ->
  crop_field var lon1 lon2 lat1 lat2 =
  inr (mkDataset
         (filter (in_range (if Qlt_bool lon1 0 then lon1 + 360 else lon1)
                           (if Qlt_bool lon2 0 then lon2 + 360 else lon2))
                 (sortby (map to_0_360 (longitude var))))
         (filter (in_range lat1 lat2) (latitude var))
         (tcg var)).
Proof.
  intros Ht [Hd Hi]. unfold crop_field. rewrite Ht. cbn [longitude latitude tcg].
  rewrite sel_slice_increasing by apply sortby_increasing.
  now rewrite sel_slice_decreasing by assumption.
Qed.

(** Without conversion, on an ascending longitude axis, the crop is the
    plain selection of the box. *)
Lemma crop_field_plain var lon1 lon2 lat1 lat2 :
  touches_meridian_180 lon1 lon2 = false ->
  is_monotonic_increasing (longitude var) = true ->
  north_to_south (latitude var) ->
  crop_field var lon1 lon2 lat1 lat2 =
  inr (mkDataset (filter (in_range lon1 lon2) (longitude var))
                 (filter (in_range lat1 lat2) (latitude var))
                 (tcg var)).
Proof.
  intros Ht Hlon [Hd Hi]. unfold crop_field. rewrite Ht.
  rewrite sel_slice_increasing by assumption.
  now rewrite sel_slice_decreasing by assumption.
Qed.

Lemma increasing_cons a r :
  Forall (fun d => label a <= label d) r ->
  is_monotonic_increasing r = true ->
  is_monotonic_increasing (a :: r) = true.
Proof.
  destruct r as [|b r]; intros Hh Hs; [reflexivity|].
  cbn [is_monotonic_increasing]. apply andb_true_iff. split; [|exact Hs].
  apply Qle_bool_iff. now inversion Hh.
Qed.

Lemma filter_increasing p l :
  is_monotonic_increasing l = true ->
  is_monotonic_increasing (filter p l) = true.
Proof.
  induction l as [|x r IH]; intro Hs; [reflexivity|].
  pose proof (increasing_head _ _ Hs) as Hh.
  specialize (IH (increasing_tail _ _ Hs)).
  cbn [filter]. destruct (p x); [|exact IH].
  apply increasing_cons; [|exact IH].
  apply Forall_forall. intros d Hd. apply filter_In in Hd.
  rewrite Forall_forall in Hh. now apply Hh.
Qed.

Lemma to_0_360_bounds c : 0 <= label (to_0_360 c) /\ label (to_0_360 c) < 360.
Proof. simpl. apply Qmod_bounds. lra. Qed.

Lemma to_0_360_at c (x y : Q) :
  label c == x ->
  Qmod (x + 360) 360 == y ->
  label (to_0_360 c) == y.
Proof.
  intros Hc Hy. simpl. rewrite <- Hy. apply Qmod_compat. now rewrite Hc.
Qed.

Lemma sample_globe_north_to_south : north_to_south (latitude sample_globe).
Proof. split; reflexivity. Qed.

(** ** The domain cropper *)

(** C1, as stated, fails: the request 100..180 touches the meridian 180
    (its eastern bound is 180), so the longitudes are converted; and on the
    sample globe the entry that was at longitude -180 (position 0) is kept,
    although -180 is not in [100,180]. *)
Lemma C1_nwp_conversion_counterexample :
  ~ (touches_meridian_180 100 180 = false) /\
  ~ (forall ds, crop_field sample_globe 100 180 0 40 = inr ds ->
       forall c, In c (longitude ds) ->
         exists c0, In c0 (longitude sample_globe) /\ origin c0 = origin c /\
                    100 <= label c0 /\ label c0 <= 180).
Proof.
  split.
  - discriminate.
  - intro H.
    destruct (crop_field sample_globe 100 180 0 40) as [e|ds] eqn:E;
      [vm_compute in E; discriminate|].
    specialize (H ds eq_refl).
    assert (Hin : In (mkCoord 180 0) (longitude ds)).
    { vm_compute in E. injection E as <-. simpl. tauto. }
    destruct (H _ Hin) as (c0 & Hc0 & Ho & Hlo & _).
    simpl in Hc0, Ho.
    repeat (destruct Hc0 as [<-|Hc0]; [simpl in Ho, Hlo; try discriminate Ho; lra|]).
    contradiction.
Qed.

(** C1, amended: on every field whose latitude axis runs North to South,
    the crop to the NWP box (100, 180, 0, 40) converts the longitudes to
    0..360 (the eastern bound is 180) and then keeps exactly the entries
    whose converted longitude is in [100,180] and whose latitude is in
    [0,40]; the array is unchanged. *)
Theorem C1_nwp_crop (var : Dataset) :
  north_to_south (latitude var) ->
  touches_meridian_180 100 180 = true /\
  exists ds,
    crop_field var 100 180 0 40 = inr ds /\
    (forall c, In c (longitude ds) <->
               exists c0, In c0 (longitude var) /\ c = to_0_360 c0 /\
                          100 <= label c /\ label c <= 180) /\
    (forall c, In c (latitude ds) <->
               In c (latitude var) /\ 0 <= label c /\ label c <= 40) /\
    is_monotonic_increasing (longitude ds) = true /\
    tcg ds = tcg var.
Proof.
  intro Hns. split; [reflexivity|].
  eexists. split; [apply crop_field_rebased; [reflexivity|exact Hns]|].
  cbn [longitude latitude tcg Qlt_bool Qle_bool negb].
  change (if Qlt_bool 100 0 then 100 + 360 else 100) with 100.
  change (if Qlt_bool 180 0 then 180 + 360 else 180) with 180.
  repeat split.
  - intro Hc. apply filter_In in Hc. destruct Hc as [Hc Hr].
    apply sortby_In, in_map_iff in Hc. destruct Hc as (c0 & <- & Hc0).
    apply in_range_iff in Hr. exists c0. tauto.
  - intros (c0 & Hc0 & -> & Hr). apply filter_In. split.
    + apply sortby_In, in_map. exact Hc0.
    + apply in_range_iff. exact Hr.
  - apply filter_In in H. tauto.
  - apply filter_In in H. destruct H as [_ H]. apply in_range_iff in H. tauto.
  - apply filter_In in H. destruct H as [_ H]. apply in_range_iff in H. tauto.
  - intros (Hc & Hr). apply filter_In. split; [exact Hc|].
    apply in_range_iff. exact Hr.
  - apply filter_increasing, sortby_increasing.
Qed.

Lemma C1_nwp_crop_witness :
  north_to_south (latitude sample_globe) /\
  exists ds, crop_field sample_globe 100 180 0 40 = inr ds /\
             tcg ds = tcg sample_globe.
Proof.
  split; [split; reflexivity|].
  destruct (C1_nwp_crop sample_globe) as (_ & ds & Hds & _ & _ & _ & Ht).
  - split; reflexivity.
  - exists ds. split; assumption.
Defined.

(** C2, as stated, fails: the sample globe stored South to North has
    longitude entries at -75 and at 50 and a latitude entry at -30, within
    [-40,0]; the crop to the SP box returns, but [slice(lat2, lat1)] runs
    from 0 down to -40 and selects nothing on an ascending axis, so the
    cropped field has no latitude entry and no grid point at all: the
    point at longitude -75 and latitude -30 is not retained. *)
Lemma C2_ascending_latitude_counterexample :
  In (mkCoord (-75) 4) (longitude sample_south_up) /\
  In (mkCoord 50 7) (longitude sample_south_up) /\
  In (mkCoord (-30) 3) (latitude sample_south_up) /\
  -40 <= label (mkCoord (-30) 3) /\ label (mkCoord (-30) 3) <= 0 /\
  exists ds,
    crop_field sample_south_up 135 (-70) (-40) 0 = inr ds /\
    latitude ds = [] /\
    sum_lat_lon ds = [0%Z].
Proof.
  split; [simpl; do 4 right; left; reflexivity|].
  split; [simpl; do 7 right; left; reflexivity|].
  split; [simpl; do 1 right; left; reflexivity|].
  split; [discriminate|]. split; [discriminate|].
  destruct (crop_field sample_south_up 135 (-70) (-40) 0) as [e|ds] eqn:E;
    [vm_compute in E; discriminate E|].
  exists ds. split; [reflexivity|].
  vm_compute in E. injection E as <-. split; reflexivity.
Qed.

(** C2, amended: on every field whose latitude axis runs North to South and that has
    longitude entries at -75 and at 50, the crop to the SP box
    (135, -70, -40, 0) takes the antimeridian branch: the longitudes are
    converted to 0..360 and sorted, the bound -70 becomes 290; the entry at
    -75 is kept, labelled 285, with every latitude entry in [-40,0]; the
    entry at 50 is not kept, every kept longitude being in [135,290]. *)
Theorem C2_sp_crop (var : Dataset) (p75 p50 : Coord) :
  north_to_south (latitude var) ->
  In p75 (longitude var) -> label p75 == -75 ->
  In p50 (longitude var) -> label p50 == 50 ->
  touches_meridian_180 135 (-70) = true /\
  exists ds,
    crop_field var 135 (-70) (-40) 0 = inr ds /\
    longitude ds =
      filter (in_range 135 290) (sortby (map to_0_360 (longitude var))) /\
    In (to_0_360 p75) (longitude ds) /\
    label (to_0_360 p75) == 285 /\
    (forall la, In la (latitude var) ->
                -40 <= label la -> label la <= 0 -> In la (latitude ds)) /\
    (forall la, In la (latitude ds) -> -40 <= label la /\ label la <= 0) /\
    (forall c, In c (longitude ds) -> 135 <= label c /\ label c <= 290) /\
    ~ In (to_0_360 p50) (longitude ds).
Proof.
  intros Hns H75 L75 H50 L50. split; [reflexivity|].
  assert (E75 : label (to_0_360 p75) == 285)
    by (apply (to_0_360_at p75 (-75)); [exact L75|reflexivity]).
  assert (E50 : label (to_0_360 p50) == 50)
    by (apply (to_0_360_at p50 50); [exact L50|reflexivity]).
  eexists. split; [apply crop_field_rebased; [reflexivity|exact Hns]|].
  cbn [longitude latitude].
  change (if Qlt_bool 135 0 then 135 + 360 else 135) with 135.
  change (if Qlt_bool (-70) 0 then -70 + 360 else -70) with 290.
  split; [reflexivity|].
  split.
  { apply filter_In. split.
    - apply sortby_In, in_map. exact H75.
    - apply in_range_iff. lra. }
  split; [exact E75|].
  split.
  { intros la Hla Hlo Hhi. apply filter_In. split; [exact Hla|].
    apply in_range_iff. lra. }
  split.
  { intros la Hla. apply filter_In in Hla. destruct Hla as [_ Hla].
    now apply in_range_iff in Hla. }
  split.
  { intros c Hc. apply filter_In in Hc. destruct Hc as [_ Hc].
    now apply in_range_iff in Hc. }
  intro Hc. apply filter_In in Hc. destruct Hc as [_ Hc].
  apply in_range_iff in Hc. lra.
Qed.

Lemma C2_sp_crop_witness :
  north_to_south (latitude sample_globe) /\
  exists ds, crop_field sample_globe 135 (-70) (-40) 0 = inr ds /\
             In (to_0_360 (mkCoord (-75) 4)) (longitude ds) /\
             ~ In (to_0_360 (mkCoord 50 7)) (longitude ds).
Proof.
  split; [split; reflexivity|].
  destruct (C2_sp_crop sample_globe (mkCoord (-75) 4) (mkCoord 50 7))
    as (_ & ds & Hds & _ & Hin & _ & _ & _ & _ & Hout).
  - split; reflexivity.
  - simpl. do 4 right. left. reflexivity.
  - reflexivity.
  - simpl. do 7 right. left. reflexivity.
  - reflexivity.
  - exists ds. repeat split; assumption.
Defined.

(** ** The monthly calendar *)

Lemma ts_eqb_refl t : ts_eqb t t = true.
Proof. unfold ts_eqb. now rewrite !Z.eqb_refl. Qed.

Lemma ts_eqb_eq a b : ts_eqb a b = true <-> a = b.
Proof.
  split; [|intros ->; apply ts_eqb_refl].
  unfold ts_eqb. rewrite !andb_true_iff, !Z.eqb_eq.
  destruct a, b; cbn [year month day]. intros [[-> ->] ->]. reflexivity.
Qed.

Section Calendar.
Local Open Scope Z_scope.

Ltac ts_bool :=
  unfold ts_leb, ts_ltb, ts_eqb, nth_month; cbn [year month day];
  repeat match goal with
    | |- context [(?a <? ?b)] => destruct (Z.ltb_spec a b)
    | |- context [(?a =? ?b)] => destruct (Z.eqb_spec a b)
    end; cbn [andb orb]; try reflexivity;
  try (exfalso; Z.to_euclidean_division_equations; lia).

Lemma ts_leb_nth_month fy ly k :
  0 <= k ->
  ts_leb (nth_month fy k) (mkTimestamp ly 12 1) = (k <? 12 * (ly - fy + 1)).
Proof. intro Hk. ts_bool. Qed.

Lemma ts_eqb_nth_month fy ly k :
  0 <= k ->
  ts_eqb (nth_month fy k) (mkTimestamp ly 12 1) = (k =? 12 * (ly - fy + 1) - 1).
Proof. intro Hk. ts_bool. Qed.

Lemma MonthBegin_nth_month fy k :
  0 <= k -> MonthBegin (nth_month fy k) = nth_month fy (k + 1).
Proof.
  intro Hk. unfold MonthBegin, nth_month. cbn [year month day].
  destruct (Z.eqb_spec (k mod 12 + 1) 12); f_equal;
    Z.to_euclidean_division_equations; lia.
Qed.

Lemma generate_range_months fy ly n :
  forall k fuel,
    0 <= k -> k + Z.of_nat n = 12 * (ly - fy + 1) -> (n <= fuel)%nat ->
    generate_range fuel (nth_month fy k) (mkTimestamp ly 12 1)
    = map (nth_month fy) (arange k n).
Proof.
  induction n as [|n IH]; intros k fuel Hk Hn Hf.
  - destruct fuel; [reflexivity|]. cbn [generate_range].
    rewrite ts_leb_nth_month by assumption.
    destruct (Z.ltb_spec k (12 * (ly - fy + 1))); [lia|reflexivity].
  - destruct fuel; [lia|]. cbn [generate_range arange map].
    rewrite ts_leb_nth_month, ts_eqb_nth_month by assumption.
    destruct (Z.ltb_spec k (12 * (ly - fy + 1))); [|lia].
    f_equal.
    destruct (Z.eqb_spec k (12 * (ly - fy + 1) - 1)).
    + destruct n; [reflexivity|lia].
    + rewrite MonthBegin_nth_month by assumption.
      apply IH; lia.
Qed.

Lemma length_arange k n : List.length (arange k n) = n.
Proof. revert k. induction n; intro k; simpl; [reflexivity|]. now rewrite IHn. Qed.

Lemma In_arange j n : forall k, In j (arange k n) <-> k <= j < k + Z.of_nat n.
Proof.
  induction n as [|n IH]; intro k; cbn [arange In].
  - lia.
  - rewrite IH. lia.
Qed.

Lemma last_arange n : forall k d, last (arange k (S n)) d = k + Z.of_nat n.
Proof.
  induction n as [|n IH]; intros k d.
  - simpl. lia.
  - change (arange k (S (S n))) with (k :: arange (k + 1) (S n)).
    change (last (k :: arange (k + 1) (S n)) d) with (last (arange (k + 1) (S n)) d).
    rewrite IH. lia.
Qed.

Lemma nth_month_lt fy k j :
  0 <= k -> k < j -> ts_lt (nth_month fy k) (nth_month fy j).
Proof. intros Hk Hj. unfold ts_lt. ts_bool. Qed.

Lemma ts_lt_irrefl t : ~ ts_lt t t.
Proof.
  unfold ts_lt, ts_ltb.
  rewrite !Z.ltb_irrefl, !Z.eqb_refl. cbn. discriminate.
Qed.

Lemma months_sorted fy n :
  forall k, 0 <= k -> StronglySorted ts_lt (map (nth_month fy) (arange k n)).
Proof.
  induction n as [|n IH]; intros k Hk; cbn [arange map]; constructor.
  - apply IH. lia.
  - apply Forall_forall. intros t Ht.
    apply in_map_iff in Ht. destruct Ht as (j & <- & Hj).
    apply In_arange in Hj. apply nth_month_lt; lia.
Qed.

Lemma StronglySorted_NoDup l : StronglySorted ts_lt l -> NoDup l.
Proof.
  induction 1 as [|t l Hs IH Hf]; constructor; [|exact IH].
  intro Hin. rewrite Forall_forall in Hf.
  exact (ts_lt_irrefl t (Hf t Hin)).
Qed.

Lemma calendar_of_months fy ly :
  fy <= ly ->
  calendar_of fy ly
  = map (nth_month fy) (arange 0 (Z.to_nat (12 * (ly - fy + 1)))).
Proof.
  intro H. unfold calendar_of, pd_date_range, is_on_offset, month_ordinal.
  cbn [year month day negb Z.eqb Pos.eqb].
  change (mkTimestamp fy 1 1) with (mkTimestamp fy (0 mod 12 + 1) 1).
  replace (mkTimestamp fy (0 mod 12 + 1) 1) with (nth_month fy 0)
    by (unfold nth_month; f_equal; change (0 / 12) with 0; lia).
  apply generate_range_months; lia.
Qed.

Lemma calendar_of_empty fy ly : ly < fy -> calendar_of fy ly = [].
Proof.
  intro H. unfold calendar_of, pd_date_range, is_on_offset.
  cbn [year month day negb Z.eqb Pos.eqb generate_range].
  replace (ts_leb (mkTimestamp fy 1 1) (mkTimestamp ly 12 1)) with false;
    [reflexivity|].
  symmetry. ts_bool.
Qed.

Lemma In_months fy n t :
  In t (map (nth_month fy) (arange 0 n)) <->
  fy <= year t /\ 12 * (year t - fy) + month t - 1 < Z.of_nat n /\
  1 <= month t <= 12 /\ day t = 1.
Proof.
  rewrite in_map_iff. split.
  - intros (j & <- & Hj). apply In_arange in Hj.
    unfold nth_month. cbn [year month day].
    Z.to_euclidean_division_equations. lia.
  - intros (Hy & Hn & Hm & Hd).
    exists (12 * (year t - fy) + month t - 1). split.
    + destruct t as [y m d]. cbn [year month day] in *. subst d.
      unfold nth_month. f_equal; Z.to_euclidean_division_equations; lia.
    + apply In_arange. lia.
Qed.

Lemma last_map_default {A B} (f : A -> B) l d : last (map f l) (f d) = f (last l d).
Proof.
  induction l as [|a l IH]; [reflexivity|].
  destruct l; [reflexivity|]. exact IH.
Qed.

(** The calendar-building step prints nothing, whatever its outcome. *)
Lemma build_calendar_silent {Ext : Externals} fy ly :
  build_calendar fy ly = ([], outcome (build_calendar fy ly)).
Proof.
  unfold build_calendar, bind, lift, ret, outcome.
  destruct (parse_datetime_string (str_of_int fy ++ "-01-01")) as [e|start];
    [reflexivity|].
  destruct (parse_datetime_string (str_of_int ly ++ "-12-01")) as [e|end_];
    reflexivity.
Qed.

Lemma build_calendar_returns_inv {Ext : Externals} fy ly date_range :
  outcome (build_calendar fy ly) = inr date_range ->
  build_calendar fy ly = ([], inr date_range).
Proof. intro H. rewrite build_calendar_silent. now rewrite H. Qed.

(** The date strings of the years 1678 to 2261 are read as written,
    checked year by year. *)
Lemma parse_iso_years {Ext : Externals} :
  forallb (fun y =>
             match parse_datetime_string (str_of_int y ++ "-01-01"),
                   parse_datetime_string (str_of_int y ++ "-12-01") with
             | inr a, inr b =>
                 ts_eqb a (mkTimestamp y 1 1) && ts_eqb b (mkTimestamp y 12 1)
             | _, _ => false
             end)
          (arange 1678 584) = true.
Proof. vm_compute. reflexivity. Qed.

Lemma parse_iso_year {Ext : Externals} y :
  iso_year y ->
  parse_datetime_string (str_of_int y ++ "-01-01") = inr (mkTimestamp y 1 1) /\
  parse_datetime_string (str_of_int y ++ "-12-01") = inr (mkTimestamp y 12 1).
Proof.
  intros [Hlo Hhi].
  pose proof parse_iso_years as Hall. rewrite forallb_forall in Hall.
  specialize (Hall y). rewrite In_arange in Hall.
  assert (Hy : 1678 <= y < 1678 + Z.of_nat 584) by lia.
  specialize (Hall Hy).
  destruct (parse_datetime_string (str_of_int y ++ "-01-01")) as [e|a];
    [discriminate Hall|].
  destruct (parse_datetime_string (str_of_int y ++ "-12-01")) as [e|b];
    [discriminate Hall|].
  apply andb_true_iff in Hall. destruct Hall as [Ha Hb].
  apply ts_eqb_eq in Ha, Hb. now subst.
Qed.

(** For years that are written with four digits and that a nanosecond
    [Timestamp] holds, line 64 builds the calendar of the two years. *)
Lemma build_calendar_iso {Ext : Externals} fy ly :
  iso_year fy -> iso_year ly ->
  build_calendar fy ly = ([], inr (calendar_of fy ly)).
Proof.
  intros Hf Hl. unfold build_calendar.
  destruct (parse_iso_year fy Hf) as [-> _].
  destruct (parse_iso_year ly Hl) as [_ ->].
  reflexivity.
Qed.

(** C4, as stated, fails: the years go through a date string, and for
    [first_year = last_year = 1] the strings '1-01-01' and '1-12-01' are
    read month first with a two-digit year, as 1 January 2001 and
    12 January 2001; the calendar has the single entry 2001-01-01, not the
    twelve month starts of the year 1. *)
Lemma C4_calendar_counterexample :
  1 <= 1 /\
  build_calendar 1 1 = ([], inr [mkTimestamp 2001 1 1]) /\
  Z.of_nat (List.length [mkTimestamp 2001 1 1]) <> 12 * (1 - 1 + 1) /\
  hd_error [mkTimestamp 2001 1 1] <> Some (mkTimestamp 1 1 1).
Proof.
  split; [lia|]. split; [vm_compute; reflexivity|].
  split; [vm_compute; discriminate|discriminate].
Qed.

(** C4, amended: for [1678 <= first_year <= last_year <= 2261] line 64
    returns, printing nothing, a calendar that has
    12 * (last_year - first_year + 1) entries, is strictly increasing (so
    without repetition), holds exactly the month starts of the years
    [first_year] to [last_year], begins with January of [first_year] and
    ends with December of [last_year]; the generator stops by its own test,
    whatever fuel it is given beyond the one [pd_date_range] passes. *)
Theorem C4_calendar {Ext : Externals} (first_year last_year : Z) :
  1678 <= first_year -> first_year <= last_year -> last_year <= 2261 ->
  build_calendar first_year last_year
    = ([], inr (calendar_of first_year last_year)) /\
  Z.of_nat (List.length (calendar_of first_year last_year))
    = 12 * (last_year - first_year + 1) /\
  StronglySorted ts_lt (calendar_of first_year last_year) /\
  NoDup (calendar_of first_year last_year) /\
  (forall t, In t (calendar_of first_year last_year) <->
             first_year <= year t <= last_year /\
             1 <= month t <= 12 /\ day t = 1) /\
  hd_error (calendar_of first_year last_year)
    = Some (mkTimestamp first_year 1 1) /\
  last (calendar_of first_year last_year) (mkTimestamp first_year 1 1)
    = mkTimestamp last_year 12 1 /\
  (forall fuel,
      (Z.to_nat (12 * (last_year - first_year + 1)) <= fuel)%nat ->
      generate_range fuel (mkTimestamp first_year 1 1)
                     (mkTimestamp last_year 12 1)
      = calendar_of first_year last_year).
Proof.
  intros Hlo H Hhi.
  split; [apply build_calendar_iso; unfold iso_year; lia|].
  rewrite calendar_of_months by assumption.
  assert (Hs : StronglySorted ts_lt
                 (map (nth_month first_year)
                      (arange 0 (Z.to_nat (12 * (last_year - first_year + 1))))))
    by (apply months_sorted; lia).
  assert (H0 : mkTimestamp first_year 1 1 = nth_month first_year 0)
    by (unfold nth_month; f_equal; change (0 / 12) with 0; lia).
  split; [rewrite length_map, length_arange; lia|].
  split; [exact Hs|].
  split; [exact (StronglySorted_NoDup _ Hs)|].
  split; [intro t; rewrite In_months; lia|].
  split; [|split].
  - destruct (Z.to_nat (12 * (last_year - first_year + 1))) as [|n] eqn:En; [lia|].
    cbn [arange map hd_error]. now rewrite H0.
  - destruct (Z.to_nat (12 * (last_year - first_year + 1))) as [|n] eqn:En; [lia|].
    rewrite H0, last_map_default, last_arange.
    unfold nth_month. f_equal; Z.to_euclidean_division_equations; lia.
  - intros fuel Hf. rewrite H0. apply generate_range_months; lia.
Qed.

Lemma C4_calendar_witness :
  (1678 <= 2000 /\ 2000 <= 2001 /\ 2001 <= 2261) /\
  build_calendar 2000 2001 = ([], inr (calendar_of 2000 2001)) /\
  Z.of_nat (List.length (calendar_of 2000 2001)) = 24 /\
  hd_error (calendar_of 2000 2001) = Some (mkTimestamp 2000 1 1).
Proof.
  split; [lia|].
  destruct (C4_calendar 2000 2001) as (Hb & Hlen & _ & _ & _ & Hhd & _).
  - lia.
  - lia.
  - lia.
  - split; [exact Hb|]. split; [exact Hlen|exact Hhd].
Defined.

(** C3, as stated, fails: with [last_year < first_year] the
    calendar-building step raises nothing and yields the empty calendar. *)
Lemma C3_empty_calendar_counterexample :
  2000 < 2001 /\
  ~ (exists e, outcome (build_calendar 2001 2000) = inl e) /\
  outcome (build_calendar 2001 2000) = inr [].
Proof.
  split; [lia|]. split; [|vm_compute; reflexivity].
  intros [e He]. vm_compute in He. discriminate He.
Qed.

(** C3, amended: for [1678 <= last_year < first_year <= 2261] the
    calendar-building step performs no I/O, raises no exception and returns
    the empty calendar. *)
Theorem C3_reversed_range_empty {Ext : Externals} (first_year last_year : Z) :
  1678 <= last_year -> last_year < first_year -> first_year <= 2261 ->
  build_calendar first_year last_year = ([], inr []).
Proof.
  intros Hlo H Hhi.
  rewrite build_calendar_iso by (unfold iso_year; lia).
  now rewrite calendar_of_empty.
Qed.

Lemma C3_reversed_range_empty_witness :
  (1678 <= 2000 /\ 2000 < 2001 /\ 2001 <= 2261) /\
  build_calendar 2001 2000 = ([], inr []).
Proof.
  split; [lia|]. apply (C3_reversed_range_empty 2001 2000); lia.
Defined.

End Calendar.

(** ** The builder monad *)

Lemma bind_inl {A B} (m : M A) (f : A -> M B) log e :
  m = (log, inl e) -> bind m f = (log, inl e).
Proof. intros ->. reflexivity. Qed.

Lemma bind_inr_inv {A B} (m : M A) (f : A -> M B) log b :
  bind m f = (log, inr b) ->
  exists l1 a l2, m = (l1, inr a) /\ f a = (l2, inr b) /\ log = l1 ++ l2.
Proof.
  destruct m as [l1 [e|a]]; cbn [bind]; intro E; [discriminate|].
  destruct (f a) as [l2 r] eqn:Ef.
  injection E as <- ->. exists l1, a, l2. auto.
Qed.

Lemma lift_inr_inv {A} (r : Exn + A) log a :
  lift r = (log, inr a) -> r = inr a /\ log = [].
Proof. unfold lift. intro E. injection E as <- ->. auto. Qed.

Lemma bind_ret_tt {A} (m : M unit) (k : M A) :
  outcome m = inr tt -> outcome (bind m (fun _ => k)) = outcome k.
Proof.
  destruct m as [l [e|[]]]; cbn [outcome snd]; intro E; [discriminate|].
  cbn [bind]. now destruct k.
Qed.

(** ** Unknown basins *)

Lemma basin_box_unknown basin :
  ~ In basin ["NWP"; "NEP"; "NA"; "NI"; "SP"; "SI"; "GLB"]%string ->
  basin_box basin = inl (ValueError "Basin not recognized").
Proof.
  intro Hn. unfold basin_box.
  repeat match goal with
    | |- context [String.eqb basin ?s] =>
        destruct (String.eqb_spec basin s) as [->|_];
        [exfalso; apply Hn; simpl; tauto|]
    end.
  reflexivity.
Qed.

(** C5: for a basin identifier outside NWP, NEP, NA, NI, SP, SI, GLB both
    builders raise [ValueError('Basin not recognized')] with an empty log:
    no file was read or opened, nothing was printed, and no value is
    returned. *)
Theorem C5_unknown_basin {Ext : Externals} (fs : FileSystem) (basin : string)
    (cluster_variables index_variables : list string)
    (cluster_path indexes_path target_path : string)
    (first_year last_year : Z) (deseasonalize detrend month_col : bool) :
  ~ In basin ["NWP"; "NEP"; "NA"; "NI"; "SP"; "SI"; "GLB"]%string ->
  build_dataset fs basin cluster_variables index_variables cluster_path
                indexes_path target_path first_year last_year
                deseasonalize detrend month_col
    = ([], inl (ValueError "Basin not recognized")) /\
  build_dataset_noTS fs basin cluster_variables index_variables cluster_path
                     indexes_path target_path first_year last_year month_col
    = ([], inl (ValueError "Basin not recognized")).
Proof.
  intro Hn. unfold build_dataset, build_dataset_noTS.
  rewrite (basin_box_unknown basin Hn). split; reflexivity.
Qed.

Lemma C5_unknown_basin_witness :
  ~ In "XX"%string ["NWP"; "NEP"; "NA"; "NI"; "SP"; "SI"; "GLB"]%string /\
  build_dataset sample_fs "XX" ["sst"%string] ["nino34"%string]
                "clusters" "indexes" "tcg" 2000 2000 false false true
    = ([], inl (ValueError "Basin not recognized")).
Proof.
  assert (Hn : ~ In "XX"%string ["NWP"; "NEP"; "NA"; "NI"; "SP"; "SI"; "GLB"]%string).
  { simpl. intros [E|[E|[E|[E|[E|[E|[E|[]]]]]]]]; discriminate E. }
  split; [exact Hn|].
  exact (proj1 (C5_unknown_basin sample_fs "XX" ["sst"%string] ["nino34"%string]
                  "clusters" "indexes" "tcg" 2000 2000 false false true Hn)).
Defined.

(** ** The repeat check *)

Lemma check_consecutive_repeats_returns df col :
  outcome (check_consecutive_repeats df col) = inr tt.
Proof.
  unfold check_consecutive_repeats.
  now destruct (0 <? List.length (filter snd (repeats_mask df)))%nat.
Qed.

(** C7: on the column 1, 1, 2, 3 the mask of repeats is true at position 1
    only, and the check prints the label of that row and no other; on every
    series the check returns normally, so whatever follows it in the
    pipeline runs as if the check had not been there. *)
Theorem C7_repeat_check :
  (forall (i0 i1 i2 i3 : Timestamp) (col : string),
      let df := [(i0, Num 1); (i1, Num 1); (i2, Num 2); (i3, Num 3)] in
      values_of (repeats_mask df) = [false; true; false; false] /\
      flagged (repeats_mask df) = [i1] /\
      check_consecutive_repeats df col
        = ([Print [Text "Consecutive values repeated found at"; Text col];
            Print [Labels [i1]]], inr tt)) /\
  (forall (df : Series) (col : string),
      outcome (check_consecutive_repeats df col) = inr tt) /\
  (forall (A : Type) (df : Series) (col : string) (rest : M A),
      outcome (check_consecutive_repeats df col ;;; rest) = outcome rest).
Proof.
  split; [|split].
  - intros i0 i1 i2 i3 col. repeat split.
  - apply check_consecutive_repeats_returns.
  - intros A df col rest. apply bind_ret_tt, check_consecutive_repeats_returns.
Qed.

(** The whole body of the audit loop returns normally once the column is a
    series, whatever the three checks find. *)
Lemma audit_column_returns {Ext : Externals} dataset col column :
  getitem dataset col = inr column ->
  outcome (audit_column dataset col) = inr tt.
Proof.
  intro E. unfold audit_column. rewrite E. cbn [lift bind app].
  destruct (0 <? List.length (filter isnull (values_of column)))%nat;
    cbn [emit ret bind app];
    pose proof (check_consecutive_repeats_returns column col) as Hc;
    destruct (check_consecutive_repeats column col) as [l [e|[]]];
    cbn [outcome snd] in Hc; try discriminate Hc; cbn [bind];
    destruct (exceeds_mean_7std (values_of column)); reflexivity.
Qed.

(** ** Crop and mask in the target step *)

(** C9: with the box of the basin, the step of lines 107-114 (and 201-208)
    does the following.  For NEP and NA it crops first: when the crop
    raises, nothing else happens and no mask file is opened; otherwise the
    mask file of the basin is opened and the result is
    [where(mask == 1)] applied to the cropped field.  For NWP, NI, SP and SI
    the result is the crop alone and no file is opened.  For GLB the field
    is returned as it is. *)
Theorem C9_mask_rule {Ext : Externals} (fs : FileSystem) (basin : string)
    (tcg_ds_or : Dataset) (min_lon max_lon min_lat max_lat : Q) :
  basin_box basin = inr (min_lon, max_lon, min_lat, max_lat) ->
  (basin = "NEP"%string \/ basin = "NA"%string ->
   match crop_field tcg_ds_or min_lon max_lon min_lat max_lat with
   | inl e =>
       crop_and_mask fs basin tcg_ds_or min_lon max_lon min_lat max_lat
       = ([], inl e)
   | inr tcg_ds =>
       crop_and_mask fs basin tcg_ds_or min_lon max_lon min_lat max_lat
       = ([OpenDataArray (basin ++ "_mask.nc")],
          match open_dataarray_at fs (basin ++ "_mask.nc") with
          | inl e => inl e
          | inr mask => xr_where tcg_ds (eq_scalar mask 1)
          end)
   end) /\
  (In basin ["NWP"; "NI"; "SP"; "SI"]%string ->
   crop_and_mask fs basin tcg_ds_or min_lon max_lon min_lat max_lat
   = ([], crop_field tcg_ds_or min_lon max_lon min_lat max_lat)) /\
  (basin = "GLB"%string ->
   crop_and_mask fs basin tcg_ds_or min_lon max_lon min_lat max_lat
   = ([], inr tcg_ds_or)).
Proof.
  intros _. split; [|split].
  - intros [-> | ->]; cbn [crop_and_mask String.eqb Ascii.eqb Bool.eqb orb];
      destruct (crop_field tcg_ds_or min_lon max_lon min_lat max_lat) as [e|ds];
      try reflexivity;
      unfold crop_and_mask; cbn [String.eqb Ascii.eqb Bool.eqb orb lift bind app];
      unfold xr_open_dataarray; cbn [emit lift bind app];
      match goal with
      | |- context [open_dataarray_at fs ?p] => destruct (open_dataarray_at fs p)
      end; cbn; try reflexivity;
      match goal with
      | |- context [xr_where ?a ?b] => destruct (xr_where a b)
      end; reflexivity.
  - intro Hin. simpl in Hin.
    destruct Hin as [<-|[<-|[<-|[<-|[]]]]]; reflexivity.
  - intros ->. reflexivity.
Qed.

Lemma C9_mask_rule_witness :
  basin_box "NA" = inr (-100, 0, 0, 40) /\
  log_of (crop_and_mask sample_fs "NA" sample_year (-100) 0 0 40)
  = [OpenDataArray "NA_mask.nc"].
Proof.
  split; [reflexivity|].
  destruct (C9_mask_rule sample_fs "NA" sample_year (-100) 0 0 40 eq_refl)
    as (Hmask & _ & _).
  specialize (Hmask (or_intror eq_refl)).
  destruct (crop_field sample_year (-100) 0 0 40) as [e|ds] eqn:E.
  - vm_compute in E. discriminate E.
  - rewrite Hmask. reflexivity.
Defined.

(** ** Loading the climate indexes *)

Lemma table_lookup_raises data y m e :
  table_lookup data y m = inl e -> missing_data_point e.
Proof.
  unfold table_lookup, missing_data_point.
  destruct (ncols data =? 0)%nat; [intro E; injection E as <-; tauto|].
  destruct ((0 <=? m)%Z && (m <? Z.of_nat (ncols data))%Z);
    [|intro E; injection E as <-; tauto].
  destruct (map _ _); intro E; [injection E as <-; tauto|discriminate].
Qed.

Lemma table_lookup_returns data y m v :
  table_lookup data y m = inr v -> cell_present data y m.
Proof.
  unfold table_lookup. intro E.
  destruct (ncols data =? 0)%nat; [discriminate|].
  destruct ((0 <=? m)%Z && (m <? Z.of_nat (ncols data))%Z) eqn:Er;
    [|discriminate].
  apply andb_true_iff in Er. destruct Er as [H0 H1].
  apply Z.leb_le in H0. apply Z.ltb_lt in H1.
  split; [|lia].
  destruct (filter _ (rows data)) as [|row sel] eqn:Ef; [discriminate|].
  assert (Hin : In row (filter
                          (fun row => value_eqb (nth 0 row NaN) (Num (inject_Z y)))
                          (rows data)))
    by (rewrite Ef; left; reflexivity).
  apply filter_In in Hin. exists row. exact Hin.
Qed.

Lemma table_lookup_absent data y m :
  ~ cell_present data y m ->
  exists e, table_lookup data y m = inl e /\ missing_data_point e.
Proof.
  intro Habs.
  destruct (table_lookup data y m) as [e|v] eqn:E.
  - exists e. split; [reflexivity|]. exact (table_lookup_raises _ _ _ _ E).
  - exfalso. exact (Habs (table_lookup_returns _ _ _ _ E)).
Qed.

Lemma table_lookup_present data y m :
  cell_present data y m -> exists v, table_lookup data y m = inr v.
Proof.
  intros [(row & Hin & Hy) Hm]. unfold table_lookup.
  destruct (ncols data =? 0)%nat eqn:E0; [apply Nat.eqb_eq in E0; lia|].
  replace ((0 <=? m)%Z && (m <? Z.of_nat (ncols data))%Z) with true
    by (symmetry; apply andb_true_iff; split;
        [apply Z.leb_le|apply Z.ltb_lt]; lia).
  destruct (filter _ (rows data)) as [|r sel] eqn:Ef.
  - exfalso.
    assert (Hf : In row (filter
                           (fun row => value_eqb (nth 0 row NaN) (Num (inject_Z y)))
                           (rows data)))
      by (apply filter_In; split; assumption).
    rewrite Ef in Hf. contradiction.
  - cbn [map]. eauto.
Qed.

(** A loop of pure look-ups: no event, and either every element has a
    value or the exception of some element is raised. *)
Lemma for_each_lift {A B} (f : A -> Exn + B) (l : list A) :
  (exists bs, for_each l (fun a => lift (f a)) = ([], inr bs) /\
              forall a, In a l -> exists b, f a = inr b) \/
  (exists a e, In a l /\ f a = inl e /\
               for_each l (fun a => lift (f a)) = ([], inl e)).
Proof.
  induction l as [|a l IH]; cbn [for_each].
  - left. exists []. split; [reflexivity|]. intros a [].
  - destruct (f a) as [e|b] eqn:Ea.
    + right. exists a, e. repeat split; [left; reflexivity|assumption].
    + destruct IH as [(bs & Ebs & Hall)|(a' & e & Hin & Ha' & He)].
      * left. exists (b :: bs). cbn [lift bind]. rewrite Ebs. split; [reflexivity|].
        intros x [<-|Hx]; [eauto|apply Hall, Hx].
      * right. exists a', e. cbn [lift bind]. rewrite He.
        repeat split; [right; assumption|assumption].
Qed.

Lemma load_index_outcome fs indexes_path date_range climate_index data :
  read_table_at fs (index_file indexes_path climate_index) = inr data ->
  (exists col, load_index fs indexes_path date_range climate_index
               = ([ReadTable (index_file indexes_path climate_index)], inr col) /\
               forall ts, In ts date_range ->
                          cell_present data (year ts) (month ts)) \/
  (exists e, load_index fs indexes_path date_range climate_index
             = ([ReadTable (index_file indexes_path climate_index)], inl e) /\
             missing_data_point e).
Proof.
  intro Hd. unfold load_index, pd_read_table. fold (index_file indexes_path climate_index).
  rewrite Hd. cbn [emit lift bind app].
  destruct (for_each_lift (fun idx => table_lookup data (year idx) (month idx))
                          date_range)
    as [(bs & -> & Hall)|(a & e & Hin & Ha & ->)].
  - left. exists bs. split; [reflexivity|].
    intros ts Hts. destruct (Hall ts Hts) as [b Hb].
    exact (table_lookup_returns _ _ _ _ Hb).
  - right. exists e. split; [reflexivity|]. exact (table_lookup_raises _ _ _ _ Ha).
Qed.

Lemma load_index_unreadable fs indexes_path date_range climate_index e :
  read_table_at fs (index_file indexes_path climate_index) = inl e ->
  load_index fs indexes_path date_range climate_index
  = ([ReadTable (index_file indexes_path climate_index)], inl e).
Proof.
  intro Hd. unfold load_index, pd_read_table. fold (index_file indexes_path climate_index).
  now rewrite Hd.
Qed.

(** The loading step either returns, and then every readable table has the
    cell of every calendar timestamp, or raises; what it raises is a
    missing-data exception when every table can be read. *)
Lemma load_indeces_outcome fs indexes_path date_range index_variables :
  (exists log df,
      load_indeces fs indexes_path date_range index_variables = (log, inr df) /\
      forall ci d ts,
        In ci index_variables ->
        read_table_at fs (index_file indexes_path ci) = inr d ->
        In ts date_range -> cell_present d (year ts) (month ts)) \/
  (exists log e,
      load_indeces fs indexes_path date_range index_variables = (log, inl e) /\
      ((forall ci, In ci index_variables ->
                   exists d, read_table_at fs (index_file indexes_path ci) = inr d) ->
       missing_data_point e)).
Proof.
  unfold load_indeces.
  induction index_variables as [|ci rest IH].
  - left. exists [], (mkDataFrame date_range []). split; [reflexivity|].
    intros ci d ts [].
  - cbn [for_each].
    destruct (read_table_at fs (index_file indexes_path ci)) as [e0|d] eqn:Hd.
    + right. rewrite (load_index_unreadable _ _ _ _ _ Hd).
      eexists _, _. split; [reflexivity|].
      intro Hread. destruct (Hread ci (or_introl eq_refl)) as [d' Hd'].
      congruence.
    + destruct (load_index_outcome fs indexes_path date_range ci d Hd)
        as [(col & -> & Hall)|(e & -> & He)].
      * destruct IH as [(log & df & E & Hrest)|(log & e & E & He)].
        -- left.
           destruct (for_each rest _) as [l [e|cols]] eqn:Ef;
             cbn [bind ret app] in E |- *; [discriminate|].
           eexists _, _. split; [reflexivity|].
           intros c d' ts [<-|Hc] Hd' Hts.
           ++ rewrite Hd in Hd'. injection Hd' as <-. apply Hall, Hts.
           ++ eapply Hrest; eassumption.
        -- right.
           destruct (for_each rest _) as [l [e'|cols]] eqn:Ef;
             cbn [bind ret app] in E |- *; [|discriminate].
           injection E as _ ->. eexists _, _. split; [reflexivity|].
           intro Hread. apply He. intros c Hc. apply Hread. right. exact Hc.
      * right. eexists _, _. split; [reflexivity|]. intros _. exact He.
Qed.

Lemma basin_box_known basin :
  In basin ["NWP"; "NEP"; "NA"; "NI"; "SP"; "SI"; "GLB"]%string ->
  exists box, basin_box basin = inr box.
Proof.
  simpl. intros [<-|[<-|[<-|[<-|[<-|[<-|[<-|[]]]]]]]]; eexists; reflexivity.
Qed.

(** C6, as stated, fails: a cell can be absent from the source without
    the table lacking the row or the column.  The line of 1999 of the sample
    table stops after February, so it has no cell for March; [read_table]
    completes the line with NaN, the look-up of (1999, 3) returns NaN, and
    the loading step returns a frame whose column holds NaN from March
    on, raising nothing. *)
Lemma C6_short_line_counterexample :
  In sample_short_line (rows sample_short_table) /\
  nth_error sample_short_line 3 = None /\
  table_lookup sample_short_table 1999 3 = inr NaN /\
  build_calendar 1999 1999 = ([], inr (calendar_of 1999 1999)) /\
  In (mkTimestamp 1999 3 1) (calendar_of 1999 1999) /\
  load_indeces sample_short_fs "indexes" (calendar_of 1999 1999)
               ["nino34"%string]
  = ([ReadTable "indexes/nino34.txt"],
     inr (mkDataFrame (calendar_of 1999 1999)
            [("nino34"%string,
              [Num 1; Num 2; NaN; NaN; NaN; NaN; NaN; NaN; NaN; NaN; NaN; NaN])])).
Proof.
  split; [right; left; reflexivity|].
  split; [reflexivity|].
  split; [vm_compute; reflexivity|].
  split; [vm_compute; reflexivity|].
  split; [vm_compute; do 2 right; left; reflexivity|].
  vm_compute. reflexivity.
Qed.

(** C6, amended: when the table of a requested climate index, as read,
    has no row for the year or no column for the month of some timestamp of
    the calendar that line 64 built, the look-up of that cell raises a
    missing-data exception ([IndexError] or [KeyError]); the index-loading
    step raises and returns no frame, and so does [build_dataset] for every
    known basin, so no value is substituted for the missing cell; and when
    the tables of all requested indexes can be read, what is raised is a
    missing-data exception. *)
Theorem C6_missing_cell {Ext : Externals} (fs : FileSystem)
    (indexes_path : string) (index_variables : list string)
    (first_year last_year : Z) (date_range : list Timestamp)
    (climate_index : string) (data : Table) (ts : Timestamp) :
  In climate_index index_variables ->
  read_table_at fs (index_file indexes_path climate_index) = inr data ->
  outcome (build_calendar first_year last_year) = inr date_range ->
  In ts date_range ->
  ~ cell_present data (year ts) (month ts) ->
  (exists e, table_lookup data (year ts) (month ts) = inl e /\
             missing_data_point e) /\
  (exists log e,
      load_indeces fs indexes_path date_range index_variables = (log, inl e) /\
      ((forall ci, In ci index_variables ->
                   exists d, read_table_at fs (index_file indexes_path ci) = inr d) ->
       missing_data_point e)) /\
  (forall basin cluster_variables cluster_path target_path
          deseasonalize detrend month_col,
      In basin ["NWP"; "NEP"; "NA"; "NI"; "SP"; "SI"; "GLB"]%string ->
      exists log e,
        build_dataset fs basin cluster_variables index_variables cluster_path
                      indexes_path target_path first_year last_year
                      deseasonalize detrend month_col = (log, inl e) /\
        ((forall ci, In ci index_variables ->
                     exists d, read_table_at fs (index_file indexes_path ci) = inr d) ->
         missing_data_point e)).
Proof.
  intros Hci Hdata Hcal Hts Habs.
  assert (Hload : exists log e,
             load_indeces fs indexes_path date_range index_variables
             = (log, inl e) /\
             ((forall ci, In ci index_variables ->
                          exists d, read_table_at fs (index_file indexes_path ci)
                                    = inr d) ->
              missing_data_point e)).
  { destruct (load_indeces_outcome fs indexes_path date_range index_variables)
      as [(log & df & _ & Hall)|Hfail]; [|exact Hfail].
    exfalso. apply Habs. eapply Hall; eassumption. }
  split; [apply table_lookup_absent; exact Habs|].
  split; [exact Hload|].
  intros basin cv cp tp des det mc Hb.
  destruct (basin_box_known basin Hb) as [[[[a b] c] d] Hbox].
  destruct Hload as (log & e & El & He).
  exists log, e. split; [|exact He].
  unfold build_dataset. rewrite Hbox.
  rewrite (build_calendar_returns_inv _ _ _ Hcal).
  cbn [lift bind ret app]. rewrite El. reflexivity.
Qed.

Lemma C6_missing_cell_witness :
  outcome (build_calendar 1999 2000) = inr (calendar_of 1999 2000) /\
  In (mkTimestamp 1999 3 1) (calendar_of 1999 2000) /\
  ~ cell_present sample_table 1999 3 /\
  exists log e,
    load_indeces sample_fs "indexes" (calendar_of 1999 2000) ["nino34"%string]
    = (log, inl e) /\ missing_data_point e.
Proof.
  assert (Hcal : outcome (build_calendar 1999 2000) = inr (calendar_of 1999 2000))
    by (vm_compute; reflexivity).
  assert (Hts : In (mkTimestamp 1999 3 1) (calendar_of 1999 2000))
    by (vm_compute; do 2 right; left; reflexivity).
  assert (Habs : ~ cell_present sample_table 1999 3).
  { intros [(row & Hin & Hy) _]. simpl in Hin.
    destruct Hin as [<-|[<-|[]]]; vm_compute in Hy; discriminate Hy. }
  split; [exact Hcal|]. split; [exact Hts|]. split; [exact Habs|].
  destruct (C6_missing_cell sample_fs "indexes" ["nino34"%string]
              1999 2000 (calendar_of 1999 2000) "nino34" sample_table
              (mkTimestamp 1999 3 1)
              (or_introl eq_refl) eq_refl Hcal Hts Habs)
    as (_ & (log & e & Hload & He) & _).
  exists log, e. split; [exact Hload|].
  apply He. intros ci [<-|[]]. eexists. reflexivity.
Defined.

(** ** Series on one index *)

Lemma index_of_combine {A} (index : list Timestamp) (vals : list A) :
  List.length vals = List.length index -> index_of (combine index vals) = index.
Proof.
  unfold index_of. revert vals.
  induction index as [|t index IH]; intros [|v vals] E; try discriminate E;
    [reflexivity|].
  cbn [combine map fst]. f_equal. apply IH. now injection E.
Qed.

Lemma values_of_combine {A} (index : list Timestamp) (vals : list A) :
  List.length vals = List.length index -> values_of (combine index vals) = vals.
Proof.
  unfold values_of. revert vals.
  induction index as [|t index IH]; intros [|v vals] E; try discriminate E;
    [reflexivity|].
  cbn [combine map snd]. f_equal. apply IH. now injection E.
Qed.

Lemma pd_Series_inr vals index s :
  pd_Series vals index = inr s ->
  s = combine index vals /\ List.length vals = List.length index.
Proof.
  unfold pd_Series.
  destruct (Nat.eqb_spec (List.length vals) (List.length index));
    intro E; [|discriminate].
  injection E as <-. auto.
Qed.





(** ** The decomposition step *)

Lemma STL_fit_inv {Ext : Externals} (endog : Series) log d :
  STL_fit endog = (log, inr d) ->
  log = [] /\
  exists arrays,
    stl_arrays (values_of endog) = inr arrays /\
    seasonal d = combine (index_of endog) (season_values arrays) /\
    List.length (season_values arrays) = List.length (index_of endog) /\
    trend d = combine (index_of endog) (trend_values arrays) /\
    List.length (trend_values arrays) = List.length (index_of endog).
Proof.
  unfold STL_fit. intro E.
  apply bind_inr_inv in E. destruct E as (l1 & arrays & l2 & Ea & E & ->).
  apply lift_inr_inv in Ea. destruct Ea as [Ea ->].
  apply bind_inr_inv in E. destruct E as (l1 & season & l3 & Es & E & ->).
  apply lift_inr_inv in Es. destruct Es as [Es ->].
  apply bind_inr_inv in E. destruct E as (l1 & tr & l4 & Et & E & ->).
  apply lift_inr_inv in Et. destruct Et as [Et ->].
  apply bind_inr_inv in E. destruct E as (l1 & re & l5 & Er & E & ->).
  apply lift_inr_inv in Er. destruct Er as [Er ->].
  unfold ret in E. injection E as <- <-.
  apply pd_Series_inr in Es, Et. destruct Es as [-> Ls], Et as [-> Lt].
  split; [reflexivity|]. exists arrays. cbn [seasonal trend]. auto.
Qed.

(** Whatever the flags, a run of [build_dataset] that returns has built a
    feature table and a target, exactly those that the run without flags
    returns, and ended with the decomposition step; the target holds whole
    numbers on the calendar that line 64 built. *)
Lemma build_dataset_inv {Ext : Externals} (fs : FileSystem) (basin : string)
    (cluster_variables index_variables : list string)
    (cluster_path indexes_path target_path : string)
    (first_year last_year : Z) (deseasonalize detrend month_col : bool)
    log out :
  build_dataset fs basin cluster_variables index_variables cluster_path
                indexes_path target_path first_year last_year
                deseasonalize detrend month_col = (log, inr out) ->
  exists log1 dataset target log2 date_range counts,
    build_dataset fs basin cluster_variables index_variables cluster_path
                  indexes_path target_path first_year last_year
                  false false month_col
      = (log1, inr (Pair dataset (mkColumn "tcg" target))) /\
    build_calendar first_year last_year = ([], inr date_range) /\
    index_of target = date_range /\
    values_of target = map (fun n => Num (inject_Z n)) counts /\
    decompose_target dataset target deseasonalize detrend = (log2, inr out) /\
    log = log1 ++ log2.
Proof.
  unfold build_dataset. intro E.
  apply bind_inr_inv in E. destruct E as (l0 & box & k0 & Ebox & E & ->).
  rewrite Ebox. destruct box as [[[min_lon max_lon] min_lat] max_lat].
  cbn [bind]. cbv beta iota in E |- *.
  apply bind_inr_inv in E. destruct E as (l1 & date_range & k1 & Ecal & E & ->).
  rewrite Ecal.
  assert (Hl1 : l1 = [])
    by (rewrite build_calendar_silent in Ecal; now injection Ecal).
  subst l1.
  cbn [bind].
  apply bind_inr_inv in E. destruct E as (l2 & df_indeces & k2 & Eidx & E & ->).
  rewrite Eidx. cbn [bind].
  apply bind_inr_inv in E. destruct E as (l3 & dataset_cluster & k3 & Eclu & E & ->).
  rewrite Eclu. cbn [bind].
  apply bind_inr_inv in E. destruct E as (l4 & dataset & k4 & Emerge & E & ->).
  rewrite Emerge. cbn [bind].
  apply bind_inr_inv in E. destruct E as (l5 & [] & k5 & Eaudit & E & ->).
  rewrite Eaudit. cbn [bind].
  apply bind_inr_inv in E. destruct E as (l6 & tcg_ds_or & k6 & Eopen & E & ->).
  rewrite Eopen. cbn [bind].
  apply bind_inr_inv in E. destruct E as (l7 & tcg_ds & k7 & Ecrop & E & ->).
  rewrite Ecrop. cbn [bind].
  apply bind_inr_inv in E. destruct E as (l8 & target & k8 & Etarget & E & ->).
  rewrite Etarget. cbn [bind decompose_target ret].
  apply lift_inr_inv in Etarget. destruct Etarget as [Etarget ->].
  unfold make_target in Etarget. apply pd_Series_inr in Etarget.
  destruct Etarget as [-> Hlen].
  eexists _, _, _, k8, date_range, (sum_lat_lon tcg_ds).
  split; [reflexivity|].
  split; [reflexivity|].
  split; [apply index_of_combine; exact Hlen|].
  split; [apply values_of_combine; exact Hlen|].
  split; [exact E|].
  rewrite !app_nil_r, <- !app_assoc. reflexivity.
Qed.


Lemma length_index_values {A} (s : list (Timestamp * A)) :
  List.length (values_of s) = List.length (index_of s).
Proof. unfold values_of, index_of. now rewrite !length_map. Qed.

Lemma decompose_target_deseasonalize {Ext : Externals} dataset target detrend log out :
  decompose_target dataset target true detrend = (log, inr out) ->
  log = [] /\
  exists decomposition,
    STL_fit target = ([], inr decomposition) /\
    out = Quad dataset (mkColumn "tcg" target)
               (mkColumn "tcg" (series_sub target (seasonal decomposition)))
               (mkColumn "season" (seasonal decomposition)).
Proof.
  cbn [decompose_target]. intro E.
  apply bind_inr_inv in E. destruct E as (l1 & d & l2 & Ed & E & ->).
  destruct (STL_fit_inv _ _ _ Ed) as [-> _].
  unfold ret in E. injection E as <- <-.
  split; [reflexivity|]. exists d. auto.
Qed.






(** C10: with both flags set [build_dataset] behaves exactly as with
    [deseasonalize] alone, log and outcome alike, so the flag [detrend] has
    no effect and the combination raises nothing of its own; when the run
    returns, it returns the feature table and the target of the run without
    flags, the target minus the seasonal component, and the seasonal
    component. *)
Theorem C10_deseasonalize_precedence {Ext : Externals} (fs : FileSystem)
    (basin : string) (cluster_variables index_variables : list string)
    (cluster_path indexes_path target_path : string)
    (first_year last_year : Z) (month_col : bool) :
  build_dataset fs basin cluster_variables index_variables cluster_path
                indexes_path target_path first_year last_year
                true true month_col
  = build_dataset fs basin cluster_variables index_variables cluster_path
                  indexes_path target_path first_year last_year
                  true false month_col /\
  (forall log out,
      build_dataset fs basin cluster_variables index_variables cluster_path
                    indexes_path target_path first_year last_year
                    true true month_col = (log, inr out) ->
      exists dataset target decomposition,
        build_dataset fs basin cluster_variables index_variables cluster_path
                      indexes_path target_path first_year last_year
                      false false month_col
          = (log, inr (Pair dataset (mkColumn "tcg" target))) /\
        STL_fit target = ([], inr decomposition) /\
        out = Quad dataset (mkColumn "tcg" target)
                   (mkColumn "tcg" (series_sub target (seasonal decomposition)))
                   (mkColumn "season" (seasonal decomposition))).
Proof.
  split; [reflexivity|].
  intros log out E.
  destruct (build_dataset_inv _ _ _ _ _ _ _ _ _ _ _ _ _ _ E)
    as (log1 & dataset & target & log2 & date_range & counts
        & Eraw & Ecal & Hidx & Hval & Edec & ->).
  destruct (decompose_target_deseasonalize _ _ _ _ _ Edec)
    as (-> & d & Ed & ->).
  exists dataset, target, d. rewrite app_nil_r. auto.
Qed.

Lemma C10_deseasonalize_precedence_witness :
  exists log dataset target adjusted season,
    build_dataset sample_fs "NA" ["sst"%string] ["nino34"%string]
                  "clusters" "indexes" "tcg" 2000 2000 true true true
    = (log, inr (Quad dataset target adjusted season)) /\
    col_name season = "season"%string.
Proof.
  destruct (C10_deseasonalize_precedence sample_fs "NA" ["sst"%string]
              ["nino34"%string] "clusters" "indexes" "tcg" 2000 2000 true)
    as [_ Hshape].
  destruct (build_dataset sample_fs "NA" ["sst"%string] ["nino34"%string]
              "clusters" "indexes" "tcg" 2000 2000 true true true)
    as [log [e|out]] eqn:E; [vm_compute in E; discriminate E|].
  destruct (Hshape log out eq_refl) as (dataset & target & d & _ & _ & ->).
  eexists log, _, _, _, _. split; reflexivity.
Defined.

(* ================================================================= *)
(** * Further properties of the code *)

(** ** [crop_field] beyond the basins of the claims *)

(** X1: when the box does not touch the meridian 180, on a field whose
    longitude axis is ascending and whose latitude axis runs North to
    South, [crop_field] converts nothing and keeps, in their order, exactly
    the longitude entries in [lon1, lon2] and the latitude entries in
    [lat1, lat2]; the array is unchanged. *)
Theorem X1_crop_without_conversion (var : Dataset) (lon1 lon2 lat1 lat2 : Q) :
  touches_meridian_180 lon1 lon2 = false ->
  is_monotonic_increasing (longitude var) = true ->
  north_to_south (latitude var) ->
  exists ds,
    crop_field var lon1 lon2 lat1 lat2 = inr ds /\
    longitude ds = filter (in_range lon1 lon2) (longitude var) /\
    latitude ds = filter (in_range lat1 lat2) (latitude var) /\
    (forall c, In c (longitude ds) <->
               In c (longitude var) /\ lon1 <= label c /\ label c <= lon2) /\
    (forall c, In c (latitude ds) <->
               In c (latitude var) /\ lat1 <= label c /\ label c <= lat2) /\
    tcg ds = tcg var.
Proof.
  intros Ht Hlon Hns. eexists. split; [apply crop_field_plain; assumption|].
  cbn [longitude latitude tcg].
  split; [reflexivity|]. split; [reflexivity|].
  split; [|split; [|reflexivity]];
    intro c; rewrite filter_In, in_range_iff; tauto.
Qed.

Lemma X1_crop_without_conversion_witness :
  exists ds,
    crop_field sample_globe (-100) 0 0 40 = inr ds /\
    longitude ds = filter (in_range (-100) 0) (longitude sample_globe).
Proof.
  destruct (X1_crop_without_conversion sample_globe (-100) 0 0 40)
    as (ds & Hds & Hlon & _).
  - reflexivity.
  - reflexivity.
  - split; reflexivity.
  - exists ds. split; assumption.
Defined.

(** X2: whenever the test of line 28 fires, on a field whose latitude axis
    runs North to South and whatever the order of its longitude axis,
    [crop_field] returns; the longitude axis of the result is ascending,
    its labels are in [0, 360), and it holds exactly the converted entries
    that lie between the two bounds, a negative bound having been shifted
    by 360. *)
Theorem X2_crop_with_conversion (var : Dataset) (lon1 lon2 lat1 lat2 : Q) :
  touches_meridian_180 lon1 lon2 = true ->
  north_to_south (latitude var) ->
  exists ds,
    crop_field var lon1 lon2 lat1 lat2 = inr ds /\
    is_monotonic_increasing (longitude ds) = true /\
    (forall c, In c (longitude ds) <->
               exists c0, In c0 (longitude var) /\ c = to_0_360 c0 /\
                 (if Qlt_bool lon1 0 then lon1 + 360 else lon1) <= label c /\
                 label c <= (if Qlt_bool lon2 0 then lon2 + 360 else lon2)) /\
    (forall c, In c (longitude ds) -> 0 <= label c /\ label c < 360) /\
    latitude ds = filter (in_range lat1 lat2) (latitude var) /\
    tcg ds = tcg var.
Proof.
  intros Ht Hns. eexists. split; [apply crop_field_rebased; assumption|].
  cbn [longitude latitude tcg].
  split; [apply filter_increasing, sortby_increasing|].
  split; [|split; [|split; reflexivity]].
  - intro c. rewrite filter_In, in_range_iff, sortby_In, in_map_iff. split.
    + intros [(c0 & <- & Hc0) Hr]. exists c0. tauto.
    + intros (c0 & Hc0 & -> & Hr). split; [exists c0; tauto|exact Hr].
  - intros c Hc. apply filter_In in Hc. destruct Hc as [Hc _].
    apply sortby_In, in_map_iff in Hc. destruct Hc as (c0 & <- & _).
    apply to_0_360_bounds.
Qed.

Lemma X2_crop_with_conversion_witness :
  exists ds,
    crop_field sample_globe (-180) (-75) 0 40 = inr ds /\
    is_monotonic_increasing (longitude ds) = true.
Proof.
  destruct (X2_crop_with_conversion sample_globe (-180) (-75) 0 40)
    as (ds & Hds & Hinc & _).
  - reflexivity.
  - split; reflexivity.
  - exists ds. split; assumption.
Defined.

Lemma crop_field_returns_inv var lon1 lon2 lat1 lat2 ds :
  crop_field var lon1 lon2 lat1 lat2 = inr ds ->
  exists lons lats,
    sel_slice (if touches_meridian_180 lon1 lon2
               then sortby (map to_0_360 (longitude var))
               else longitude var)
              (if touches_meridian_180 lon1 lon2
               then if Qlt_bool lon1 0 then lon1 + 360 else lon1
               else lon1)
              (if touches_meridian_180 lon1 lon2
               then if Qlt_bool lon2 0 then lon2 + 360 else lon2
               else lon2)
    = inr lons /\
    sel_slice (latitude var) lat2 lat1 = inr lats /\
    ds = mkDataset lons lats (tcg var).
Proof.
  unfold crop_field.
  destruct (touches_meridian_180 lon1 lon2); cbn [longitude latitude tcg];
    (destruct (sel_slice _ _ _) as [e|lons]; [discriminate|]);
    (destruct (sel_slice (latitude var) lat2 lat1) as [e|lats]; [discriminate|]);
    intro E; injection E as <-; eauto.
Qed.

Lemma get_slice_bound_raises index v side e :
  get_slice_bound index v side = inl e ->
  e = KeyError /\
  is_monotonic_increasing index = false /\
  is_monotonic_decreasing index = false.
Proof.
  unfold get_slice_bound.
  destruct (is_monotonic_increasing index); [discriminate|].
  destruct (is_monotonic_decreasing index); [discriminate|].
  destruct (get_loc index v 0) as [|p ps].
  - intro E. injection E as <-. auto.
  - destruct (contiguous (p :: ps)); [discriminate|].
    intro E. injection E as <-. auto.
Qed.

Lemma sel_slice_raises index start stop e :
  sel_slice index start stop = inl e ->
  e = KeyError /\
  is_monotonic_increasing index = false /\
  is_monotonic_decreasing index = false.
Proof.
  unfold sel_slice.
  destruct (get_slice_bound index start Left) as [e1|lo] eqn:E1.
  - intro E. injection E as <-. exact (get_slice_bound_raises _ _ _ _ E1).
  - destruct (get_slice_bound index stop Right) as [e2|hi] eqn:E2; [|discriminate].
    intro E. injection E as <-. exact (get_slice_bound_raises _ _ _ _ E2).
Qed.

Lemma in_range_reversed_empty lo hi (l : list Coord) :
  hi < lo -> filter (in_range lo hi) l = [].
Proof.
  intro H. apply filter_none. apply Forall_forall. intros c _.
  destruct (in_range lo hi c) eqn:E; [|reflexivity].
  apply in_range_iff in E. lra.
Qed.

Lemma sum_lat_lon_no_latitude lons slices :
  sum_lat_lon (mkDataset lons [] slices) = map (fun _ => 0%Z) slices.
Proof. unfold sum_lat_lon. cbn [latitude tcg flat_map]. reflexivity. Qed.

(** X3: on a field whose latitude axis is stored South to North, a box
    with [lat1 < lat2] selects no latitude at all: [crop_field], when it
    returns, returns an empty latitude axis, and the spatial sums of the
    result are zero at every time step.  The inverted slice
    [slice(lat2, lat1)] raises nothing on such a field. *)
Theorem X3_crop_ascending_latitude_empty (var : Dataset)
    (lon1 lon2 lat1 lat2 : Q) (ds : Dataset) :
  is_monotonic_increasing (latitude var) = true ->
  lat1 < lat2 ->
  crop_field var lon1 lon2 lat1 lat2 = inr ds ->
  latitude ds = [] /\
  sum_lat_lon ds = map (fun _ => 0%Z) (tcg var).
Proof.
  intros Hinc Hlat E.
  destruct (crop_field_returns_inv _ _ _ _ _ _ E) as (lons & lats & _ & El & ->).
  rewrite sel_slice_increasing in El by assumption.
  rewrite in_range_reversed_empty in El by assumption.
  injection El as <-. split; [reflexivity|].
  apply sum_lat_lon_no_latitude.
Qed.

Lemma X3_crop_ascending_latitude_empty_witness :
  exists ds,
    crop_field sample_south_up 100 180 0 40 = inr ds /\
    latitude ds = [] /\
    sum_lat_lon ds = [0%Z].
Proof.
  destruct (crop_field sample_south_up 100 180 0 40) as [e|ds] eqn:E;
    [vm_compute in E; discriminate E|].
  exists ds. split; [reflexivity|].
  apply (X3_crop_ascending_latitude_empty sample_south_up 100 180 0 40 ds).
  - reflexivity.
  - reflexivity.
  - exact E.
Defined.

Lemma crop_field_raises_inv (var : Dataset)
    (lon1 lon2 lat1 lat2 : Q) (e : Exn) :
  crop_field var lon1 lon2 lat1 lat2 = inl e ->
  e = KeyError /\
  ((touches_meridian_180 lon1 lon2 = false /\
    is_monotonic_increasing (longitude var) = false /\
    is_monotonic_decreasing (longitude var) = false) \/
   (is_monotonic_increasing (latitude var) = false /\
    is_monotonic_decreasing (latitude var) = false)).
Proof.
  unfold crop_field.
  destruct (touches_meridian_180 lon1 lon2) eqn:Ht; cbn [longitude latitude tcg].
  - rewrite sel_slice_increasing by apply sortby_increasing.
    destruct (sel_slice (latitude var) lat2 lat1) as [e'|lats] eqn:El;
      [|discriminate].
    intro E. injection E as <-.
    destruct (sel_slice_raises _ _ _ _ El) as (-> & Hi & Hd). auto.
  - destruct (sel_slice (longitude var) lon1 lon2) as [e1|lons] eqn:Elon.
    + intro E. injection E as <-.
      destruct (sel_slice_raises _ _ _ _ Elon) as (-> & Hi & Hd). auto.
    + destruct (sel_slice (latitude var) lat2 lat1) as [e'|lats] eqn:El;
        [|discriminate].
      intro E. injection E as <-.
      destruct (sel_slice_raises _ _ _ _ El) as (-> & Hi & Hd). auto.
Qed.

Lemma get_loc_absent index v : forall pos,
  Forall (fun c => ~ label c == v) index -> get_loc index v pos = [].
Proof.
  induction index as [|c index IH]; intros pos H; [reflexivity|].
  inversion H as [|? ? Hc Hrest]; subst. cbn [get_loc].
  destruct (Qeq_bool (label c) v) eqn:E.
  - apply Qeq_bool_iff in E. contradiction.
  - apply IH. exact Hrest.
Qed.

(** X5: on a latitude axis that is neither ascending nor descending, a
    bound of the box that is not a label of the axis makes [crop_field]
    raise [KeyError]: on such an axis the bounds are looked up, not
    compared. *)
Theorem X5_crop_unsorted_latitude_missing_bound (var : Dataset)
    (lon1 lon2 lat1 lat2 : Q) :
  is_monotonic_increasing (latitude var) = false ->
  is_monotonic_decreasing (latitude var) = false ->
  Forall (fun c => ~ label c == lat2) (latitude var) \/
  Forall (fun c => ~ label c == lat1) (latitude var) ->
  crop_field var lon1 lon2 lat1 lat2 = inl KeyError.
Proof.
  intros Hi Hd Hmiss.
  assert (El : sel_slice (latitude var) lat2 lat1 = inl KeyError).
  { unfold sel_slice, get_slice_bound. rewrite Hi, Hd.
    destruct Hmiss as [H2|H1].
    - now rewrite (get_loc_absent _ _ 0%nat H2).
    - rewrite (get_loc_absent _ lat1 0%nat H1).
      destruct (get_loc (latitude var) lat2 0) as [|p ps]; [reflexivity|].
      now destruct (contiguous (p :: ps)). }
  destruct (crop_field var lon1 lon2 lat1 lat2) as [e|ds] eqn:E.
  - now destruct (crop_field_raises_inv _ _ _ _ _ _ E) as [-> _].
  - destruct (crop_field_returns_inv _ _ _ _ _ _ E) as (_ & lats & _ & El' & _).
    rewrite El in El'. discriminate El'.
Qed.

Lemma X5_crop_unsorted_latitude_missing_bound_witness :
  is_monotonic_increasing (latitude sample_shuffled) = false /\
  is_monotonic_decreasing (latitude sample_shuffled) = false /\
  crop_field sample_shuffled 100 180 0 40 = inl KeyError.
Proof.
  split; [reflexivity|]. split; [reflexivity|].
  apply (X5_crop_unsorted_latitude_missing_bound sample_shuffled 100 180 0 40).
  - reflexivity.
  - reflexivity.
  - left. simpl. repeat constructor; intro H; vm_compute in H; discriminate H.
Defined.

Lemma sel_slice_block index start stop l :
  sel_slice index start stop = inr l ->
  exists before after, index = before ++ l ++ after.
Proof.
  unfold sel_slice.
  destruct (get_slice_bound index start Left) as [e|lo]; [discriminate|].
  destruct (get_slice_bound index stop Right) as [e|hi]; [discriminate|].
  intro E. injection E as <-.
  exists (firstn lo index), (skipn (hi - lo) (skipn lo index)).
  now rewrite firstn_skipn, firstn_skipn.
Qed.

(** X6: whatever the field and the box, a crop that returns leaves the
    array untouched and keeps one block of consecutive entries of each
    axis: of the latitude axis as stored, and of the longitude axis as
    stored or, after a conversion, of the converted and sorted axis.  No
    entry is invented, repeated or reordered. *)
Theorem X6_crop_keeps_blocks (var : Dataset) (lon1 lon2 lat1 lat2 : Q)
    (ds : Dataset) :
  crop_field var lon1 lon2 lat1 lat2 = inr ds ->
  tcg ds = tcg var /\
  (exists north south, latitude var = north ++ latitude ds ++ south) /\
  (exists west east,
      (if touches_meridian_180 lon1 lon2
       then sortby (map to_0_360 (longitude var))
       else longitude var) = west ++ longitude ds ++ east) /\
  (forall c, In c (longitude ds) ->
             exists c0, In c0 (longitude var) /\ origin c = origin c0).
Proof.
  intro E.
  destruct (crop_field_returns_inv _ _ _ _ _ _ E) as (lons & lats & Elon & Elat & ->).
  cbn [longitude latitude tcg].
  split; [reflexivity|].
  split; [exact (sel_slice_block _ _ _ _ Elat)|].
  destruct (sel_slice_block _ _ _ _ Elon) as (west & east & Hblock).
  split; [exists west, east; exact Hblock|].
  intros c Hc.
  assert (Hin : In c (west ++ lons ++ east))
    by (apply in_or_app; right; apply in_or_app; left; exact Hc).
  rewrite <- Hblock in Hin.
  destruct (touches_meridian_180 lon1 lon2).
  - apply sortby_In, in_map_iff in Hin. destruct Hin as (c0 & <- & Hc0).
    exists c0. split; [exact Hc0|reflexivity].
  - exists c. split; [exact Hin|reflexivity].
Qed.

Lemma X6_crop_keeps_blocks_witness :
  exists ds,
    crop_field sample_globe 135 (-70) (-40) 0 = inr ds /\
    tcg ds = tcg sample_globe.
Proof.
  destruct (crop_field sample_globe 135 (-70) (-40) 0) as [e|ds] eqn:E;
    [vm_compute in E; discriminate E|].
  exists ds. split; [reflexivity|].
  exact (proj1 (X6_crop_keeps_blocks _ _ _ _ _ _ E)).
Defined.

(** ** The conversion of longitudes *)

Lemma Qmod_unique (x m : Q) (k : Z) :
  0 < m -> 0 <= x - m * inject_Z k -> x - m * inject_Z k < m ->
  Qmod x m == x - m * inject_Z k.
Proof.
  intros Hm Hlo Hhi.
  destruct (Qmod_bounds x m Hm) as [Hlo' Hhi']. unfold Qmod in *.
  set (j := Qfloor (x / m)) in *.
  assert (Hjk : j = k).
  { assert (H1 : inject_Z j < inject_Z k + 1).
    { apply Qmult_lt_l with (z := m); [exact Hm|]. lra. }
    assert (H2 : inject_Z k < inject_Z j + 1).
    { apply Qmult_lt_l with (z := m); [exact Hm|]. lra. }
    change 1 with (inject_Z 1) in H1, H2.
    rewrite <- inject_Z_plus in H1, H2.
    rewrite <- Zlt_Qlt in H1, H2. lia. }
  rewrite Hjk. reflexivity.
Qed.

(** X7: on a label that is a multiple of 1/64 between -1024 and 1024 (the
    labels of a grid of whole, half, quarter or eighth degrees, on which
    the floating-point operations of line 29 are exact), the conversion
    [(lon + 360) % 360] keeps the position of an entry, puts its label in
    [0, 360) at a whole number of turns from the stored one, again a
    multiple of 1/64, leaves a label already in [0, 360) as it is and adds
    360 to a label in [-360, 0); so the labels -180 and 180 both become
    180. *)
Theorem X7_to_0_360 (c : Coord) (n : Z) :
  label c == inject_Z n / 64 ->
  -1024 <= label c -> label c <= 1024 ->
  origin (to_0_360 c) = origin c /\
  0 <= label (to_0_360 c) /\ label (to_0_360 c) < 360 /\
  (exists k : Z, label (to_0_360 c) == label c + 360 * inject_Z k) /\
  (exists m : Z, label (to_0_360 c) == inject_Z m / 64) /\
  (0 <= label c -> label c < 360 -> label (to_0_360 c) == label c) /\
  (-360 <= label c -> label c < 0 -> label (to_0_360 c) == label c + 360).
Proof.
  intros Hn _ _.
  split; [reflexivity|].
  destruct (to_0_360_bounds c) as [Hlo Hhi].
  split; [exact Hlo|]. split; [exact Hhi|].
  assert (Hk : exists k : Z, label (to_0_360 c) == label c + 360 * inject_Z k).
  { exists (1 - Qfloor ((label c + 360) / 360))%Z.
    cbn [to_0_360 label]. unfold Qmod.
    unfold Zminus. rewrite inject_Z_plus, inject_Z_opp.
    change (inject_Z 1) with 1. ring. }
  split; [exact Hk|].
  split; [|split].
  - destruct Hk as [k Hk]. exists (n + 23040 * k)%Z.
    rewrite Hk, Hn, inject_Z_plus, inject_Z_mult.
    change (inject_Z 23040) with 23040. field.
  - intros H0 H1. cbn [to_0_360 label].
    rewrite (Qmod_unique (label c + 360) 360 1); change (inject_Z 1) with 1; lra.
  - intros H0 H1. cbn [to_0_360 label].
    rewrite (Qmod_unique (label c + 360) 360 0); change (inject_Z 0) with 0; lra.
Qed.

Lemma X7_to_0_360_witness :
  label (mkCoord (-75) 4) == inject_Z (-4800) / 64 /\
  -1024 <= label (mkCoord (-75) 4) /\ label (mkCoord (-75) 4) <= 1024 /\
  label (to_0_360 (mkCoord (-75) 4)) == 285 /\
  label (to_0_360 (mkCoord 50 7)) == 50.
Proof.
  split; [reflexivity|]. split; [discriminate|]. split; [discriminate|].
  destruct (X7_to_0_360 (mkCoord (-75) 4) (-4800))
    as (_ & _ & _ & _ & _ & _ & Hneg);
    [reflexivity|discriminate|discriminate|].
  destruct (X7_to_0_360 (mkCoord 50 7) 3200)
    as (_ & _ & _ & _ & _ & Hpos & _);
    [reflexivity|discriminate|discriminate|].
  cbn [label] in Hneg, Hpos. split.
  - rewrite Hneg; [reflexivity|discriminate|reflexivity].
  - rewrite Hpos; [reflexivity|discriminate|reflexivity].
Defined.

(** ** The repeat check on any series *)

Lemma value_eqb_NaN_r v : value_eqb v NaN = false.
Proof. now destruct v. Qed.

Lemma shift_compare_pairwise vals : forall prev,
  zip_with value_eqb (firstn (List.length vals) (prev :: vals)) vals
  = pairwise_eqb prev vals.
Proof.
  induction vals as [|v r IH]; intro prev; [reflexivity|].
  cbn [List.length firstn zip_with pairwise_eqb]. f_equal. apply IH.
Qed.

Lemma length_pairwise_eqb vals : forall prev,
  List.length (pairwise_eqb prev vals) = List.length vals.
Proof.
  induction vals as [|v r IH]; intro prev; [reflexivity|].
  cbn [pairwise_eqb List.length]. f_equal. apply IH.
Qed.

Lemma nth_pairwise_eqb vals : forall prev i,
  nth (S i) (pairwise_eqb prev vals) false
  = value_eqb (nth i vals NaN) (nth (S i) vals NaN).
Proof.
  induction vals as [|v r IH]; intros prev i.
  - now destruct i.
  - cbn [pairwise_eqb]. change (nth (S i) (?b :: ?l) false) with (nth i l false).
    destruct i as [|j].
    + destruct r as [|w r']; cbn [pairwise_eqb nth].
      * symmetry. apply value_eqb_NaN_r.
      * reflexivity.
    + rewrite IH. reflexivity.
Qed.

Lemma repeats_mask_values df :
  values_of (repeats_mask df) = pairwise_eqb NaN (values_of df).
Proof.
  unfold repeats_mask, shift1. rewrite shift_compare_pairwise.
  apply values_of_combine.
  rewrite length_pairwise_eqb. apply length_index_values.
Qed.

Lemma filter_snd_nil (index : list Timestamp) : forall mask,
  List.length mask = List.length index ->
  (filter snd (combine index mask) = [] <-> forall i, nth i mask false = false).
Proof.
  induction index as [|t index IH]; intros [|b mask] E; try discriminate E.
  - split; [intros _ i; now destruct i|reflexivity].
  - cbn [combine filter snd]. injection E as E. specialize (IH mask E).
    destruct b.
    + split; [discriminate|]. intro H. specialize (H 0%nat). discriminate H.
    + rewrite IH. split.
      * intros H [|i]; [reflexivity|apply H].
      * intros H i. apply (H (S i)).
Qed.

(** X8: for every series, the mask computed by [df.shift(1) == df] has one
    entry per row, on the index of the series; the first row is never
    flagged and row i+1 is flagged exactly when its value equals, as a
    number, the value of row i, so that two missing values in a row are not
    a repeat.  The check prints nothing exactly when no row equals its
    predecessor, and otherwise prints two lines, the second holding the
    flagged labels. *)
Theorem X8_repeat_check_characterised (df : Series) (col : string) :
  index_of (repeats_mask df) = index_of df /\
  List.length (values_of (repeats_mask df)) = List.length df /\
  nth 0 (values_of (repeats_mask df)) false = false /\
  (forall i, nth (S i) (values_of (repeats_mask df)) false
             = value_eqb (nth i (values_of df) NaN)
                         (nth (S i) (values_of df) NaN)) /\
  (check_consecutive_repeats df col = ([], inr tt) <->
   forall i, value_eqb (nth i (values_of df) NaN)
                       (nth (S i) (values_of df) NaN) = false) /\
  (check_consecutive_repeats df col = ([], inr tt) \/
   check_consecutive_repeats df col
   = ([Print [Text "Consecutive values repeated found at"; Text col];
       Print [Labels (flagged (repeats_mask df))]], inr tt)).
Proof.
  assert (Hlen : List.length (zip_with value_eqb (shift1 (values_of df))
                                       (values_of df))
                 = List.length (index_of df)).
  { unfold shift1. rewrite shift_compare_pairwise, length_pairwise_eqb.
    apply length_index_values. }
  split; [unfold repeats_mask; apply index_of_combine; exact Hlen|].
  rewrite repeats_mask_values.
  split; [rewrite length_pairwise_eqb; unfold values_of; apply length_map|].
  split; [now destruct (values_of df)|].
  split; [intro i; apply nth_pairwise_eqb|].
  assert (Hsilent : filter snd (repeats_mask df) = [] <->
                    forall i, value_eqb (nth i (values_of df) NaN)
                                        (nth (S i) (values_of df) NaN) = false).
  { unfold repeats_mask. rewrite (filter_snd_nil _ _ Hlen).
    unfold shift1. rewrite shift_compare_pairwise. split.
    - intros H i. rewrite <- nth_pairwise_eqb with (prev := NaN). apply H.
    - intros H [|i]; [now destruct (values_of df)|].
      rewrite nth_pairwise_eqb. apply H. }
  unfold check_consecutive_repeats.
  destruct (filter snd (repeats_mask df)) as [|p l] eqn:Ef; cbn [List.length Nat.ltb Nat.leb].
  - split; [|left; reflexivity]. split; [intros _; now apply Hsilent|reflexivity].
  - split; [|right; reflexivity]. split; [discriminate|].
    intro H. apply Hsilent in H. discriminate H.
Qed.

(** ** Looking a cell up *)

(** X9: when several rows of the table match the year, the look-up returns
    the cell of the first of them; the cell is returned as it is, a missing
    value (NaN) included, without any exception. *)
Theorem X9_table_lookup_first_match (data : Table)
    (before : list (list value)) (row : list value) (after : list (list value))
    (y m : Z) :
  rows data = before ++ row :: after ->
  Forall (fun r => value_eqb (nth 0 r NaN) (Num (inject_Z y)) = false) before ->
  value_eqb (nth 0 row NaN) (Num (inject_Z y)) = true ->
  (0 <= m < Z.of_nat (ncols data))%Z ->
  table_lookup data y m = inr (nth (Z.to_nat m) row NaN).
Proof.
  intros Hrows Hbefore Hrow Hm. unfold table_lookup.
  destruct (ncols data =? 0)%nat eqn:E0; [apply Nat.eqb_eq in E0; lia|].
  replace ((0 <=? m)%Z && (m <? Z.of_nat (ncols data))%Z) with true
    by (symmetry; apply andb_true_iff; split;
        [apply Z.leb_le|apply Z.ltb_lt]; lia).
  rewrite Hrows, filter_app, (filter_none _ before Hbefore).
  cbn [app filter]. rewrite Hrow. reflexivity.
Qed.

Lemma X9_table_lookup_first_match_witness :
  table_lookup (mkTable 3 [[Num 1999; Num 5; Num 6];
                           [Num 2000; NaN; Num 7];
                           [Num 2000; Num 8; Num 9]]) 2000 1
  = inr NaN.
Proof.
  apply (X9_table_lookup_first_match
           (mkTable 3 [[Num 1999; Num 5; Num 6];
                       [Num 2000; NaN; Num 7];
                       [Num 2000; Num 8; Num 9]])
           [[Num 1999; Num 5; Num 6]] [Num 2000; NaN; Num 7]
           [[Num 2000; Num 8; Num 9]] 2000 1).
  - reflexivity.
  - repeat constructor.
  - reflexivity.
  - simpl. lia.
Defined.

(** ** Loading the indexes, when it succeeds *)

Lemma for_each_lift_returns {A B} (f : A -> Exn + B) (l : list A) :
  (forall a, In a l -> exists b, f a = inr b) ->
  exists bs, for_each l (fun a => lift (f a)) = ([], inr bs) /\
             map inr bs = map f l.
Proof.
  induction l as [|a l IH]; intro H.
  - exists []. split; reflexivity.
  - destruct (H a (or_introl eq_refl)) as [b Hb].
    destruct IH as (bs & Ebs & Hmap); [intros x Hx; apply H; right; exact Hx|].
    exists (b :: bs). cbn [for_each]. rewrite Hb. cbn [lift bind].
    rewrite Ebs. split; [reflexivity|].
    cbn [map]. now rewrite Hb, Hmap.
Qed.

Lemma length_map_inr {A B} (bs : list B) (l : list A) (f : A -> Exn + B) :
  map inr bs = map f l -> List.length bs = List.length l.
Proof.
  intro H. apply (f_equal (@List.length _)) in H. now rewrite !length_map in H.
Qed.

(** X10: when the table of every requested index can be read and holds the
    cell of every timestamp of the date range, the loading step reads the
    files once each, in the order of [index_variables], and returns a frame
    on the date range with one column per index, in that order, whose
    values are the cells looked up, one per timestamp. *)
Theorem X10_load_indeces_returns (fs : FileSystem) (indexes_path : string)
    (date_range : list Timestamp) (index_variables : list string) :
  (forall ci, In ci index_variables ->
     exists d, read_table_at fs (index_file indexes_path ci) = inr d /\
               forall ts, In ts date_range ->
                          cell_present d (year ts) (month ts)) ->
  exists df,
    load_indeces fs indexes_path date_range index_variables
    = (map (fun ci => ReadTable (index_file indexes_path ci)) index_variables,
       inr df) /\
    df_index df = date_range /\
    map fst (df_columns df) = index_variables /\
    (forall ci col, In (ci, col) (df_columns df) ->
       List.length col = List.length date_range /\
       forall d, read_table_at fs (index_file indexes_path ci) = inr d ->
                 map inr col
                 = map (fun ts => table_lookup d (year ts) (month ts))
                       date_range).
Proof.
  intro Hall. unfold load_indeces.
  assert (Hcols : exists columns,
             for_each index_variables
               (fun climate_index =>
                  col <- load_index fs indexes_path date_range climate_index ;;
                  ret (climate_index, col))
             = (map (fun ci => ReadTable (index_file indexes_path ci))
                    index_variables, inr columns) /\
             map fst columns = index_variables /\
             forall ci col, In (ci, col) columns ->
               List.length col = List.length date_range /\
               forall d, read_table_at fs (index_file indexes_path ci) = inr d ->
                         map inr col
                         = map (fun ts => table_lookup d (year ts) (month ts))
                               date_range).
  { induction index_variables as [|ci rest IH].
    - exists []. split; [reflexivity|]. split; [reflexivity|]. intros c v [].
    - destruct (Hall ci (or_introl eq_refl)) as (d & Hd & Hcells).
      destruct IH as (columns & Ecols & Hnames & Hvals);
        [intros c Hc; apply Hall; right; exact Hc|].
      destruct (for_each_lift_returns
                  (fun idx => table_lookup d (year idx) (month idx)) date_range)
        as (col & Ecol & Hmap).
      { intros ts Hts. apply table_lookup_present, Hcells, Hts. }
      exists ((ci, col) :: columns).
      cbn [for_each]. unfold load_index at 1, pd_read_table.
      fold (index_file indexes_path ci). rewrite Hd.
      cbn [emit lift bind app]. rewrite Ecol. cbn [bind ret app].
      rewrite Ecols. cbn [bind ret app map fst]. rewrite app_nil_r.
      split; [reflexivity|]. split; [now rewrite Hnames|].
      intros c v [Heq|Hin]; [|apply Hvals, Hin].
      injection Heq as <- <-. split; [exact (length_map_inr _ _ _ Hmap)|].
      intros d' Hd'. rewrite Hd in Hd'. injection Hd' as <-. exact Hmap. }
  destruct Hcols as (columns & -> & Hnames & Hvals).
  exists (mkDataFrame date_range columns). cbn [bind ret df_index df_columns].
  rewrite app_nil_r. auto.
Qed.

Lemma X10_load_indeces_returns_witness :
  exists df,
    load_indeces sample_fs "indexes" (calendar_of 2000 2001) ["nino34"%string]
    = ([ReadTable "indexes/nino34.txt"], inr df) /\
    df_index df = calendar_of 2000 2001.
Proof.
  destruct (X10_load_indeces_returns sample_fs "indexes" (calendar_of 2000 2001)
              ["nino34"%string]) as (df & Hload & Hidx & _).
  - intros ci [<-|[]]. exists sample_table. split; [reflexivity|].
    intros ts Hts. apply (table_lookup_returns sample_table _ _
      (match table_lookup sample_table (year ts) (month ts) with
       | inr v => v | inl _ => NaN end)).
    vm_compute in Hts.
    repeat (destruct Hts as [<-|Hts]; [reflexivity|]). destruct Hts.
  - exists df. split; [exact Hload|exact Hidx].
Defined.

(** ** No cluster variable *)

(** X11: with an empty list of cluster variables, [build_dataset], for a
    known basin and once line 64 has built the calendar and the indexes
    are loaded on it, raises [UnboundLocalError] for [dataset_cluster]: the
    frame is only ever assigned inside the loop over the cluster variables.
    Nothing is read after the index tables; [build_dataset_noTS] does the
    same after its own loading of the indexes. *)
Theorem X11_no_cluster_variable {Ext : Externals} (fs : FileSystem)
    (basin : string) (index_variables : list string)
    (cluster_path indexes_path target_path : string)
    (first_year last_year : Z) (deseasonalize detrend month_col : bool) :
  In basin ["NWP"; "NEP"; "NA"; "NI"; "SP"; "SI"; "GLB"]%string ->
  (forall date_range log df,
      outcome (build_calendar first_year last_year) = inr date_range ->
      load_indeces fs indexes_path date_range index_variables = (log, inr df) ->
      build_dataset fs basin [] index_variables cluster_path indexes_path
                    target_path first_year last_year
                    deseasonalize detrend month_col
      = (log, inl (UnboundLocalError "dataset_cluster"))) /\
  (forall date_range log df,
      outcome (build_calendar first_year last_year) = inr date_range ->
      load_residual_indeces fs indexes_path date_range index_variables
      = (log, inr df) ->
      build_dataset_noTS fs basin [] index_variables cluster_path indexes_path
                         target_path first_year last_year month_col
      = (log, inl (UnboundLocalError "dataset_cluster"))).
Proof.
  intro Hb. destruct (basin_box_known basin Hb) as [[[[a b] c] d] Hbox].
  split; intros date_range log df Hcal El.
  - unfold build_dataset. rewrite Hbox.
    rewrite (build_calendar_returns_inv _ _ _ Hcal).
    cbn [lift bind ret app]. rewrite El.
    cbn [bind load_clusters ret merge_features raise app].
    now rewrite app_nil_r.
  - unfold build_dataset_noTS. rewrite Hbox.
    rewrite (build_calendar_returns_inv _ _ _ Hcal).
    cbn [lift bind ret app]. rewrite El.
    cbn [bind load_clusters ret merge_features raise app].
    now rewrite app_nil_r.
Qed.

Lemma X11_no_cluster_variable_witness :
  build_dataset sample_fs "SP" [] ["nino34"%string] "clusters" "indexes" "tcg"
                2000 2000 false false true
  = ([ReadTable "indexes/nino34.txt"],
     inl (UnboundLocalError "dataset_cluster")).
Proof.
  destruct (X11_no_cluster_variable sample_fs "SP" ["nino34"%string]
              "clusters" "indexes" "tcg" 2000 2000 false false true)
    as [Hbuild _].
  - simpl. do 4 right. left. reflexivity.
  - destruct (load_indeces sample_fs "indexes" (calendar_of 2000 2000)
                ["nino34"%string]) as [log [e|df]] eqn:El;
      [vm_compute in El; discriminate El|].
    rewrite (Hbuild (calendar_of 2000 2000) log df);
      [|vm_compute; reflexivity|exact El].
    vm_compute in El. injection El as <- _. reflexivity.
Defined.

(** ** Restricting a frame to the date range *)

Lemma select_rows_map {A} (p : A -> bool) (l : list A) :
  select_rows (map p l) l = filter p l.
Proof.
  induction l as [|a l IH]; [reflexivity|].
  cbn [map select_rows filter]. destruct (p a); now rewrite IH.
Qed.

Lemma select_rows_length {A B} (mask : list bool) : forall (l : list A) (l' : list B),
  List.length l = List.length l' ->
  List.length (select_rows mask l) = List.length (select_rows mask l').
Proof.
  induction mask as [|b mask IH]; intros [|a l] [|a' l'] E;
    try discriminate E; try reflexivity.
  injection E as E. cbn [select_rows].
  destruct b; cbn [List.length]; [f_equal|]; apply IH; exact E.
Qed.

Lemma select_rows_all {A} (mask : list bool) : forall (l : list A),
  Forall (fun b => b = true) mask ->
  (List.length l <= List.length mask)%nat ->
  select_rows mask l = l.
Proof.
  induction mask as [|b mask IH]; intros [|a l] Hall Hlen; try reflexivity.
  - cbn [List.length] in Hlen. lia.
  - inversion Hall as [|? ? Hb Hrest]; subst. cbn [select_rows].
    f_equal. apply IH; [exact Hrest|]. cbn [List.length] in Hlen. lia.
Qed.

Lemma select_rows_length_le {A} (mask : list bool) : forall (l : list A),
  (List.length (select_rows mask l) <= List.length (filter (fun b => b) mask))%nat.
Proof.
  induction mask as [|b mask IH]; intros [|a l]; simpl; try lia.
  specialize (IH l). destruct b; simpl; lia.
Qed.

Lemma existsb_ts_eqb t date_range :
  existsb (ts_eqb t) date_range = true <-> In t date_range.
Proof.
  rewrite existsb_exists. split.
  - intros (x & Hx & E). apply ts_eqb_eq in E. now subst.
  - intro H. exists t. split; [exact H|apply ts_eqb_refl].
Qed.

(** X12: [df[df.index.isin(date_range)]] keeps, in their order, exactly the
    rows whose label is in the date range and adds none; the columns keep
    their names and their order; a frame whose columns have the length of
    its index stays so; and filtering a second time changes nothing. *)
Theorem X12_filter_isin (df : DataFrame) (date_range : list Timestamp) :
  df_index (filter_isin df date_range)
  = filter (fun t => existsb (ts_eqb t) date_range) (df_index df) /\
  (forall t, In t (df_index (filter_isin df date_range)) <->
             In t (df_index df) /\ In t date_range) /\
  map fst (df_columns (filter_isin df date_range)) = map fst (df_columns df) /\
  (rectangular df -> rectangular (filter_isin df date_range)) /\
  filter_isin (filter_isin df date_range) date_range = filter_isin df date_range.
Proof.
  assert (Hidx : df_index (filter_isin df date_range)
                 = filter (fun t => existsb (ts_eqb t) date_range) (df_index df))
    by (unfold filter_isin; cbn [df_index]; apply select_rows_map).
  split; [exact Hidx|].
  split; [intro t; rewrite Hidx, filter_In, existsb_ts_eqb; tauto|].
  split; [unfold filter_isin; cbn [df_columns]; rewrite map_map; reflexivity|].
  split.
  - unfold rectangular, filter_isin. cbn [df_index df_columns].
    intro H. apply Forall_map. eapply Forall_impl; [|exact H].
    intros c Hc. cbn [snd]. apply select_rows_length. exact Hc.
  - set (once := filter_isin df date_range).
    assert (Hall : Forall (fun b => b = true)
                     (map (fun t => existsb (ts_eqb t) date_range)
                          (df_index once))).
    { apply Forall_map, Forall_forall. intros t Ht.
      unfold once in Ht. rewrite Hidx in Ht. apply filter_In in Ht. tauto. }
    transitivity (mkDataFrame (df_index once) (df_columns once));
      [|reflexivity].
    unfold filter_isin at 1. f_equal.
    + apply select_rows_all; [exact Hall|]. now rewrite length_map.
    + rewrite <- (map_id (df_columns once)) at 2.
      apply map_ext_in. intros [name col] Hc. cbn [fst snd]. f_equal.
      apply select_rows_all; [exact Hall|].
      rewrite length_map. unfold once, filter_isin in Hc |- *.
      cbn [df_columns df_index] in Hc |- *.
      apply in_map_iff in Hc. destruct Hc as ([n c] & Heq & _).
      cbn [fst snd] in Heq. injection Heq as _ <-.
      etransitivity; [apply select_rows_length_le|].
      rewrite select_rows_map.
      clear. induction (df_index df) as [|t l IH]; [apply Nat.le_refl|].
      simpl. destruct (existsb (ts_eqb t) date_range); simpl; lia.
Qed.

Lemma X12_filter_isin_witness :
  rectangular sample_clusters /\
  rectangular (filter_isin sample_clusters (calendar_of 2000 2000)).
Proof.
  assert (H : rectangular sample_clusters) by (repeat constructor).
  split; [exact H|].
  destruct (X12_filter_isin sample_clusters (calendar_of 2000 2000))
    as (_ & _ & _ & Hrect & _).
  exact (Hrect H).
Defined.

(** ** Setting and reading a column *)

Lemma filter_set_same name vals (cols : list (string * list value)) :
  filter (fun c => String.eqb (fst c) name)
         (map (fun c => if String.eqb (fst c) name then (name, vals) else c) cols)
  = map (fun _ => (name, vals)) (filter (fun c => String.eqb (fst c) name) cols).
Proof.
  induction cols as [|c cols IH]; [reflexivity|].
  cbn [map filter]. destruct (String.eqb (fst c) name) eqn:E.
  - cbn [fst]. rewrite String.eqb_refl. cbn [map]. now rewrite IH.
  - rewrite E. exact IH.
Qed.

Lemma filter_set_other name other vals (cols : list (string * list value)) :
  other <> name ->
  filter (fun c => String.eqb (fst c) other)
         (map (fun c => if String.eqb (fst c) name then (name, vals) else c) cols)
  = filter (fun c => String.eqb (fst c) other) cols.
Proof.
  intro Hne. induction cols as [|c cols IH]; [reflexivity|].
  cbn [map filter]. destruct (String.eqb_spec (fst c) name) as [Ec|Ec].
  - cbn [fst]. rewrite Ec.
    destruct (String.eqb_spec name other) as [E|_]; [congruence|]. exact IH.
  - now rewrite IH.
Qed.

Lemma existsb_filter_nil {A} (p : A -> bool) l :
  existsb p l = false <-> filter p l = [].
Proof.
  induction l as [|a l IH]; [tauto|].
  cbn [existsb filter]. destruct (p a); cbn [orb]; [|exact IH].
  split; discriminate.
Qed.

(** X13: after [dataset[name] = vals], on a frame where at most one column
    bore the name, reading [dataset[name]] gives the values set, on the
    unchanged index; reading any other name gives what it gave before; and
    the column is added last when the name was new, replaced in place
    otherwise. *)
Theorem X13_set_column_then_getitem (df : DataFrame) (name : string)
    (vals : list value) :
  (List.length (columns_named df name) <= 1)%nat ->
  getitem (set_column df name vals) name = inr (combine (df_index df) vals) /\
  (forall other, other <> name ->
                 getitem (set_column df name vals) other = getitem df other) /\
  df_index (set_column df name vals) = df_index df /\
  map fst (df_columns (set_column df name vals))
  = (if existsb (fun c => String.eqb (fst c) name) (df_columns df)
     then map fst (df_columns df)
     else map fst (df_columns df) ++ [name]).
Proof.
  unfold columns_named, set_column, getitem. intro Hone.
  destruct (existsb (fun c => String.eqb (fst c) name) (df_columns df)) eqn:Ex;
    cbn [df_index df_columns].
  - split; [|split; [|split]].
    + rewrite filter_set_same.
      destruct (filter _ (df_columns df)) as [|c [|c' l]] eqn:Ef.
      * apply existsb_filter_nil in Ef. congruence.
      * reflexivity.
      * cbn [List.length] in Hone. lia.
    + intros other Hne. now rewrite filter_set_other.
    + reflexivity.
    + rewrite map_map. apply map_ext_in. intros c _.
      destruct (String.eqb_spec (fst c) name) as [->|_]; reflexivity.
  - apply existsb_filter_nil in Ex.
    split; [|split; [|split]].
    + rewrite filter_app, Ex. cbn [app filter fst]. now rewrite String.eqb_refl.
    + intros other Hne. rewrite filter_app. cbn [filter fst].
      destruct (String.eqb_spec name other) as [E|_]; [congruence|].
      now rewrite app_nil_r.
    + reflexivity.
    + rewrite map_app. reflexivity.
Qed.

Lemma X13_set_column_then_getitem_witness :
  getitem (add_month_col sample_clusters) "month"
  = inr (combine (df_index sample_clusters)
                 (map (fun t => Num (inject_Z (month t)))
                      (df_index sample_clusters))).
Proof.
  apply (X13_set_column_then_getitem sample_clusters "month").
  simpl. lia.
Defined.

(** ** The audit loop *)

Lemma for_each_outcome {A B} (body : A -> M B) (l : list A) :
  (exists bs, outcome (for_each l body) = inr bs /\
              forall a, In a l -> exists b, outcome (body a) = inr b) \/
  (exists a e, In a l /\ outcome (body a) = inl e /\
               outcome (for_each l body) = inl e).
Proof.
  induction l as [|a l IH]; cbn [for_each].
  - left. exists []. split; [reflexivity|]. intros a [].
  - destruct (body a) as [la [e|b]] eqn:Ea.
    + right. exists a, e. rewrite Ea. repeat split. left. reflexivity.
    + destruct IH as [(bs & Ebs & Hall)|(a' & e & Hin & Ha' & He)].
      * left. exists (b :: bs). cbn [bind].
        destruct (for_each l body) as [ll [e|bs']]; cbn [outcome snd] in Ebs;
          [discriminate|]. injection Ebs as ->. cbn [bind ret].
        split; [reflexivity|].
        intros x [<-|Hx]; [rewrite Ea; exists b; reflexivity|apply Hall, Hx].
      * right. exists a', e. cbn [bind].
        destruct (for_each l body) as [ll [e'|bs']]; cbn [outcome snd] in He;
          [|discriminate]. injection He as ->.
        repeat split; [right; assumption|assumption].
Qed.

Lemma for_each_log {A B} (P : Event -> Prop) (body : A -> M B) (l : list A) :
  (forall a, In a l -> Forall P (log_of (body a))) ->
  Forall P (log_of (for_each l body)).
Proof.
  induction l as [|a l IH]; intro H; cbn [for_each]; [constructor|].
  pose proof (H a (or_introl eq_refl)) as Ha.
  assert (Hl : Forall P (log_of (for_each l body)))
    by (apply IH; intros x Hx; apply H; right; exact Hx).
  destruct (body a) as [la [e|b]]; cbn [bind log_of fst] in *; [exact Ha|].
  destruct (for_each l body) as [ll [e|bs]]; cbn [bind ret log_of fst] in *;
    rewrite ?app_nil_r; apply Forall_app; auto.
Qed.

Lemma check_consecutive_repeats_prints df col :
  Forall is_print (log_of (check_consecutive_repeats df col)).
Proof.
  unfold check_consecutive_repeats.
  destruct (0 <? List.length (filter snd (repeats_mask df)))%nat;
    repeat constructor.
Qed.

Lemma audit_column_prints {Ext : Externals} dataset col :
  Forall is_print (log_of (audit_column dataset col)).
Proof.
  unfold audit_column.
  destruct (getitem dataset col) as [e|column]; [constructor|].
  cbn [lift bind app].
  pose proof (check_consecutive_repeats_prints column col) as Hc.
  pose proof (check_consecutive_repeats_returns column col) as Hr.
  destruct (check_consecutive_repeats column col) as [lc [e|[]]];
    cbn [outcome snd log_of fst] in Hr, Hc; [discriminate Hr|].
  destruct (0 <? List.length (filter isnull (values_of column)))%nat;
    destruct (exceeds_mean_7std (values_of column));
    cbn [emit ret bind app log_of fst]; rewrite ?app_nil_r;
    repeat first [apply Forall_cons | apply Forall_app; split
                 | exact Hc | exact I | constructor].
Qed.

Lemma audit_column_outcome {Ext : Externals} dataset col :
  outcome (audit_column dataset col)
  = match columns_named dataset col with
    | [] => inl KeyError
    | [_] => inr tt
    | _ => inl (ValueError "The truth value of a Series is ambiguous")
    end.
Proof.
  unfold columns_named.
  destruct (filter _ (df_columns dataset)) as [|c [|c' l]] eqn:Ef.
  - unfold audit_column, getitem. now rewrite Ef.
  - apply (audit_column_returns dataset col (combine (df_index dataset) (snd c))).
    unfold getitem. now rewrite Ef.
  - unfold audit_column, getitem. now rewrite Ef.
Qed.

Lemma NoDup_columns_named (cols : list (string * list value)) name :
  NoDup (map fst cols) -> In name (map fst cols) ->
  exists c, filter (fun c => String.eqb (fst c) name) cols = [c].
Proof.
  induction cols as [|c cols IH]; intros Hnd Hin; [destruct Hin|].
  cbn [map] in Hnd. inversion Hnd as [|? ? Hnotin Hnd']; subst.
  cbn [filter]. destruct (String.eqb_spec (fst c) name) as [E|E].
  - exists c. f_equal. apply filter_none, Forall_forall. intros d Hd.
    destruct (String.eqb_spec (fst d) name) as [Ed|_]; [|reflexivity].
    exfalso. apply Hnotin. rewrite E, <- Ed. apply in_map, Hd.
  - destruct Hin as [Hin|Hin]; [contradiction|]. apply IH; assumption.
Qed.

Lemma audit_log_only_prints {Ext : Externals} (dataset : DataFrame) :
  Forall is_print (log_of (audit dataset)).
Proof.
  unfold audit.
  pose proof (for_each_log is_print (audit_column dataset)
                (map fst (df_columns dataset))
                (fun a _ => audit_column_prints dataset a)) as Hlog.
  destruct (for_each (map fst (df_columns dataset)) (audit_column dataset))
    as [l [e|bs]]; cbn [log_of fst bind ret] in *; rewrite ?app_nil_r;
    exact Hlog.
Qed.

(** X14: the audit only prints; it opens no file.  On a frame whose column
    names are distinct it returns normally whatever the checks find.  On a
    frame where a name is borne by two columns or more it raises
    [ValueError]: [dataset[col]] is then a frame, and the condition of the
    first [if] has no truth value. *)
Theorem X14_audit {Ext : Externals} (dataset : DataFrame) :
  Forall is_print (log_of (audit dataset)) /\
  (NoDup (map fst (df_columns dataset)) -> outcome (audit dataset) = inr tt) /\
  (forall name, (2 <= List.length (columns_named dataset name))%nat ->
     outcome (audit dataset)
     = inl (ValueError "The truth value of a Series is ambiguous")).
Proof.
  unfold audit.
  pose proof (for_each_log is_print (audit_column dataset)
                (map fst (df_columns dataset))
                (fun a _ => audit_column_prints dataset a)) as Hlog.
  destruct (for_each_outcome (audit_column dataset)
                             (map fst (df_columns dataset)))
    as [(bs & Ebs & Hall)|(a & e & Hin & Ha & He)];
    destruct (for_each (map fst (df_columns dataset)) (audit_column dataset))
      as [l [e'|bs']]; cbn [outcome snd log_of fst bind ret] in *;
    try discriminate; rewrite ?app_nil_r.
  - split; [exact Hlog|]. split; [reflexivity|].
    intros name Hdup. exfalso.
    assert (Hin : In name (map fst (df_columns dataset))).
    { unfold columns_named in Hdup.
      destruct (filter _ (df_columns dataset)) as [|c l'] eqn:Ef;
        [cbn in Hdup; lia|].
      assert (Hc : In c (filter (fun c => String.eqb (fst c) name)
                                (df_columns dataset)))
        by (rewrite Ef; left; reflexivity).
      apply filter_In in Hc. destruct Hc as [Hc Hn].
      apply String.eqb_eq in Hn. rewrite <- Hn. apply in_map, Hc. }
    destruct (Hall name Hin) as [[] Hb].
    rewrite audit_column_outcome in Hb.
    destruct (columns_named dataset name) as [|c [|c' l']];
      cbn [List.length] in Hdup; try discriminate Hb; lia.
  - injection He as ->. split; [exact Hlog|].
    rewrite audit_column_outcome in Ha.
    assert (Hne : columns_named dataset a <> []).
    { apply in_map_iff in Hin. destruct Hin as (c & <- & Hc).
      unfold columns_named. intro Hnil.
      assert (Hf : In c (filter (fun c0 => String.eqb (fst c0) (fst c))
                                (df_columns dataset)))
        by (apply filter_In; split; [exact Hc|apply String.eqb_refl]).
      rewrite Hnil in Hf. exact Hf. }
    split.
    + intro Hnd. exfalso.
      destruct (NoDup_columns_named _ a Hnd Hin) as [c Hc].
      unfold columns_named in Ha. rewrite Hc in Ha. discriminate Ha.
    + intros name _.
      destruct (columns_named dataset a) as [|c [|c' l']];
        [contradiction|discriminate Ha|]. injection Ha as <-. reflexivity.
Qed.

Lemma X14_audit_witness :
  outcome (audit sample_clusters) = inr tt /\
  outcome (audit sample_twice)
  = inl (ValueError "The truth value of a Series is ambiguous").
Proof.
  destruct (X14_audit sample_clusters) as (_ & Hok & _).
  destruct (X14_audit sample_twice) as (_ & _ & Hdup).
  split.
  - apply Hok. simpl. constructor; [intros []|constructor].
  - apply (Hdup "sst"%string). simpl. lia.
Defined.

(** ** The order of the file accesses *)

Lemma for_each_returns_inv {A B} (body : A -> M B) (l : list A) log bs :
  for_each l body = (log, inr bs) ->
  exists results,
    Forall2 (fun a r => body a = (fst r, inr (snd r))) l results /\
    log = flat_map fst results /\ bs = map snd results.
Proof.
  revert log bs. induction l as [|a l IH]; intros log bs E; cbn [for_each] in E.
  - unfold ret in E. injection E as <- <-. exists []. repeat split. constructor.
  - apply bind_inr_inv in E. destruct E as (l1 & b & l2 & Ea & E & ->).
    apply bind_inr_inv in E. destruct E as (l3 & bs' & l4 & Er & E & ->).
    unfold ret in E. injection E as <- <-.
    destruct (IH _ _ Er) as (results & HF & -> & ->).
    exists ((l1, b) :: results). split; [constructor; assumption|].
    cbn [flat_map map fst snd]. now rewrite app_nil_r.
Qed.

Lemma for_each_length {A B} (body : A -> M B) (l : list A) log bs :
  for_each l body = (log, inr bs) -> List.length bs = List.length l.
Proof.
  intro E. destruct (for_each_returns_inv _ _ _ _ E) as (results & HF & _ & ->).
  rewrite length_map. symmetry. exact (Forall2_length HF).
Qed.

Lemma for_each_lift_log {A B} (f : A -> Exn + B) (l : list A) log r :
  for_each l (fun a => lift (f a)) = (log, r) -> log = [].
Proof.
  destruct (for_each_lift f l) as [(bs & -> & _)|(a & e & _ & _ & ->)];
    intro E; now injection E as <- _.
Qed.

Lemma pd_read_table_inv fs path log data :
  pd_read_table fs path = (log, inr data) ->
  log = [ReadTable path] /\ read_table_at fs path = inr data.
Proof.
  unfold pd_read_table. destruct (read_table_at fs path) as [e|d];
    cbn [emit lift bind app]; intro E; [discriminate|].
  injection E as <- <-. auto.
Qed.

Lemma load_index_log fs indexes_path date_range ci log col :
  load_index fs indexes_path date_range ci = (log, inr col) ->
  log = [ReadTable (index_file indexes_path ci)] /\
  List.length col = List.length date_range.
Proof.
  unfold load_index. fold (index_file indexes_path ci). intro E.
  apply bind_inr_inv in E. destruct E as (l1 & data & l2 & Er & E & ->).
  apply pd_read_table_inv in Er. destruct Er as [-> _].
  rewrite (for_each_lift_log _ _ _ _ E).
  split; [reflexivity|]. exact (for_each_length _ _ _ _ E).
Qed.

Lemma load_indeces_log fs indexes_path date_range index_variables log df :
  load_indeces fs indexes_path date_range index_variables = (log, inr df) ->
  log = map (fun ci => ReadTable (index_file indexes_path ci)) index_variables /\
  df_index df = date_range /\
  map fst (df_columns df) = index_variables /\
  rectangular df.
Proof.
  unfold load_indeces. intro E.
  apply bind_inr_inv in E. destruct E as (l1 & columns & l2 & Ec & E & ->).
  unfold ret in E. injection E as <- <-. rewrite app_nil_r.
  unfold rectangular. cbn [df_index df_columns].
  split; [|split; [reflexivity|]].
  - revert l1 columns Ec.
    induction index_variables as [|ci rest IH]; intros l1 columns Ec;
      cbn [for_each] in Ec.
    + unfold ret in Ec. now injection Ec as <- _.
    + apply bind_inr_inv in Ec. destruct Ec as (la & c & lb & Ea & Ec & ->).
      apply bind_inr_inv in Ea. destruct Ea as (lc & col & ld & Ei & Ea & ->).
      apply load_index_log in Ei. destruct Ei as [-> _].
      unfold ret in Ea. injection Ea as <- _.
      apply bind_inr_inv in Ec. destruct Ec as (le & cs & lf & Er & Ec & ->).
      unfold ret in Ec. injection Ec as <- _.
      rewrite (IH _ _ Er). cbn [map app]. now rewrite !app_nil_r.
  - revert l1 columns Ec.
    induction index_variables as [|ci rest IH]; intros l1 columns Ec;
      cbn [for_each] in Ec.
    + unfold ret in Ec. injection Ec as _ <-. split; [reflexivity|constructor].
    + apply bind_inr_inv in Ec. destruct Ec as (la & c & lb & Ea & Ec & ->).
      apply bind_inr_inv in Ea. destruct Ea as (lc & col & ld & Ei & Ea & ->).
      apply load_index_log in Ei. destruct Ei as [_ Hlen].
      unfold ret in Ea. injection Ea as _ <-.
      apply bind_inr_inv in Ec. destruct Ec as (le & cs & lf & Er & Ec & ->).
      unfold ret in Ec. injection Ec as _ <-.
      destruct (IH _ _ Er) as [Hn Hr]. cbn [map fst]. split; [now f_equal|].
      constructor; [exact Hlen|exact Hr].
Qed.

Lemma pd_read_csv_inv fs path log df :
  pd_read_csv fs path = (log, inr df) ->
  log = [ReadCsv path] /\ read_csv_at fs path = inr df.
Proof.
  unfold pd_read_csv. destruct (read_csv_at fs path) as [e|d];
    cbn [emit lift bind app]; intro E; [discriminate|].
  injection E as <- <-. auto.
Qed.

Lemma load_clusters_log {Ext : Externals} fs cluster_path date_range
      cluster_variables : forall acc log r,
  load_clusters fs cluster_path date_range cluster_variables acc = (log, inr r) ->
  log = map (fun var => ReadCsv (cluster_file cluster_path var)) cluster_variables /\
  (r = None <-> cluster_variables = [] /\ acc = None).
Proof.
  induction cluster_variables as [|var rest IH]; intros acc log r E;
    cbn [load_clusters] in E.
  - unfold ret in E. injection E as <- <-. split; [reflexivity|]. tauto.
  - fold (cluster_file cluster_path var) in E.
    apply bind_inr_inv in E. destruct E as (l1 & temp & l2 & Er & E & ->).
    apply pd_read_csv_inv in Er. destruct Er as [-> _].
    apply bind_inr_inv in E. destruct E as (l3 & joined & l4 & Ej & E & ->).
    assert (l3 = []) as ->.
    { destruct acc; [apply lift_inr_inv in Ej; tauto|].
      unfold ret in Ej. now injection Ej as <- _. }
    destruct (IH _ _ _ E) as [-> Hr]. split; [reflexivity|].
    split; [|intros [H _]; discriminate H].
    intro Hn. apply Hr in Hn. destruct Hn as [_ Hn]. discriminate Hn.
Qed.

Lemma xr_open_dataset_inv fs path log ds :
  xr_open_dataset fs path = (log, inr ds) ->
  log = [OpenDataset path] /\ open_dataset_at fs path = inr ds.
Proof.
  unfold xr_open_dataset. destruct (open_dataset_at fs path) as [e|d];
    cbn [emit lift bind app]; intro E; [discriminate|].
  injection E as <- <-. auto.
Qed.

Lemma open_years_inv fs target_path (years : list Z) log datasets :
  for_each years (fun year => xr_open_dataset fs (year_file target_path year))
  = (log, inr datasets) ->
  log = map (fun year => OpenDataset (year_file target_path year)) years /\
  map inr datasets
  = map (fun year => open_dataset_at fs (year_file target_path year)) years.
Proof.
  revert log datasets. induction years as [|y years IH]; intros log datasets E;
    cbn [for_each] in E.
  - unfold ret in E. injection E as <- <-. split; reflexivity.
  - apply bind_inr_inv in E. destruct E as (l1 & d & l2 & Ed & E & ->).
    apply xr_open_dataset_inv in Ed. destruct Ed as [-> Hd].
    apply bind_inr_inv in E. destruct E as (l3 & ds & l4 & Er & E & ->).
    unfold ret in E. injection E as <- <-.
    destruct (IH _ _ Er) as [-> Hmap].
    cbn [map app]. rewrite app_nil_r, Hd, Hmap. split; reflexivity.
Qed.

Lemma open_target_inv {Ext : Externals} fs target_path first_year last_year
      log ds :
  open_target fs target_path first_year last_year = (log, inr ds) ->
  exists datasets,
    log = map (fun year => OpenDataset (year_file target_path year))
              (years_of first_year last_year) /\
    map inr datasets
    = map (fun year => open_dataset_at fs (year_file target_path year))
          (years_of first_year last_year) /\
    xr_concat_time datasets = inr ds.
Proof.
  unfold open_target. fold (years_of first_year last_year).
  intro E. apply bind_inr_inv in E. destruct E as (l1 & datasets & l2 & Eo & E & ->).
  apply lift_inr_inv in E. destruct E as [Ec ->].
  destruct (open_years_inv fs target_path _ _ _ Eo) as [-> Hmap].
  exists datasets. rewrite app_nil_r. auto.
Qed.

Lemma crop_and_mask_log {Ext : Externals} fs basin tcg_ds_or a b c d log ds :
  crop_and_mask fs basin tcg_ds_or a b c d = (log, inr ds) ->
  log = if String.eqb basin "NEP" || String.eqb basin "NA"
        then [OpenDataArray (mask_file basin)] else [].
Proof.
  unfold crop_and_mask.
  destruct (String.eqb basin "NEP" || String.eqb basin "NA").
  - intro E. apply bind_inr_inv in E. destruct E as (l1 & cr & l2 & Ec & E & ->).
    apply lift_inr_inv in Ec. destruct Ec as [_ ->].
    apply bind_inr_inv in E. destruct E as (l3 & mask & l4 & Em & E & ->).
    apply lift_inr_inv in E. destruct E as [_ ->].
    unfold xr_open_dataarray in Em. fold (mask_file basin) in Em.
    destruct (open_dataarray_at fs (mask_file basin));
      cbn [emit lift bind app] in Em; [discriminate|].
    injection Em as <- _. reflexivity.
  - destruct (negb (String.eqb basin "GLB")).
    + intro E. apply lift_inr_inv in E. tauto.
    + unfold ret. intro E. now injection E as <- _.
Qed.

Lemma decompose_target_log {Ext : Externals} dataset target des det log out :
  decompose_target dataset target des det = (log, inr out) -> log = [].
Proof.
  unfold decompose_target.
  destruct des; [|destruct det].
  - intro E. apply bind_inr_inv in E. destruct E as (l1 & d & l2 & Ed & E & ->).
    destruct (STL_fit_inv _ _ _ Ed) as [-> _].
    unfold ret in E. now injection E as <- _.
  - intro E. apply bind_inr_inv in E. destruct E as (l1 & d & l2 & Ed & E & ->).
    destruct (STL_fit_inv _ _ _ Ed) as [-> _].
    unfold ret in E. now injection E as <- _.
  - unfold ret. intro E. now injection E as <- _.
Qed.

Lemma basin_box_returns basin box :
  basin_box basin = inr box ->
  In basin ["NWP"; "NEP"; "NA"; "NI"; "SP"; "SI"; "GLB"]%string.
Proof.
  unfold basin_box.
  repeat match goal with
    | |- context [String.eqb basin ?s] =>
        destruct (String.eqb_spec basin s) as [->|_]; [intros _; simpl; tauto|]
    end.
  discriminate.
Qed.

(** The steps of a run of [build_dataset] that returns. *)
Lemma build_dataset_trace {Ext : Externals} (fs : FileSystem) (basin : string)
    (cluster_variables index_variables : list string)
    (cluster_path indexes_path target_path : string)
    (first_year last_year : Z) (deseasonalize detrend month_col : bool)
    log out :
  build_dataset fs basin cluster_variables index_variables cluster_path
                indexes_path target_path first_year last_year
                deseasonalize detrend month_col = (log, inr out) ->
  exists min_lon max_lon min_lat max_lat date_range df_indeces dataset_cluster
         merged tcg_ds_or tcg_ds target
         l_idx l_clu l_audit l_open l_crop l_dec,
    basin_box basin = inr (min_lon, max_lon, min_lat, max_lat) /\
    build_calendar first_year last_year = ([], inr date_range) /\
    load_indeces fs indexes_path date_range index_variables
      = (l_idx, inr df_indeces) /\
    load_clusters fs cluster_path date_range cluster_variables None
      = (l_clu, inr (Some dataset_cluster)) /\
    pd_concat_axis1 dataset_cluster df_indeces = inr merged /\
    audit (if month_col then add_month_col merged else merged)
      = (l_audit, inr tt) /\
    open_target fs target_path first_year last_year = (l_open, inr tcg_ds_or) /\
    crop_and_mask fs basin tcg_ds_or min_lon max_lon min_lat max_lat
      = (l_crop, inr tcg_ds) /\
    make_target date_range (sum_lat_lon tcg_ds) = inr target /\
    decompose_target (if month_col then add_month_col merged else merged)
                     target deseasonalize detrend = (l_dec, inr out) /\
    log = l_idx ++ l_clu ++ l_audit ++ l_open ++ l_crop ++ l_dec.
Proof.
  unfold build_dataset. intro E.
  apply bind_inr_inv in E. destruct E as (l0 & box & k0 & Ebox & E & ->).
  apply lift_inr_inv in Ebox. destruct Ebox as [Ebox ->].
  destruct box as [[[min_lon max_lon] min_lat] max_lat]. cbv beta iota in E.
  apply bind_inr_inv in E. destruct E as (l1 & date_range & k1 & Ecal & E & ->).
  assert (Hl1 : l1 = [])
    by (rewrite build_calendar_silent in Ecal; now injection Ecal).
  subst l1.
  apply bind_inr_inv in E. destruct E as (l2 & df_indeces & k2 & Eidx & E & ->).
  apply bind_inr_inv in E. destruct E as (l3 & dataset_cluster & k3 & Eclu & E & ->).
  apply bind_inr_inv in E. destruct E as (l4 & merged & k4 & Emerge & E & ->).
  apply bind_inr_inv in E. destruct E as (l5 & [] & k5 & Eaudit & E & ->).
  apply bind_inr_inv in E. destruct E as (l6 & tcg_ds_or & k6 & Eopen & E & ->).
  apply bind_inr_inv in E. destruct E as (l7 & tcg_ds & k7 & Ecrop & E & ->).
  apply bind_inr_inv in E. destruct E as (l8 & target & k8 & Etarget & E & ->).
  apply lift_inr_inv in Etarget. destruct Etarget as [Etarget ->].
  unfold merge_features in Emerge.
  destruct dataset_cluster as [dc|]; [|discriminate Emerge].
  apply lift_inr_inv in Emerge. destruct Emerge as [Emerge ->].
  exists min_lon, max_lon, min_lat, max_lat, date_range, df_indeces, dc, merged,
         tcg_ds_or, tcg_ds, target, l2, l3, l5, l6, l7, k8.
  repeat (split; [assumption|]). reflexivity.
Qed.



(** X15: the log of a run of [build_dataset] that returns is, in this
    order: one read per climate index, in the order of [index_variables];
    one read per cluster variable, in the order of [cluster_variables];
    the lines printed by the audit; one opening per year from [first_year]
    to [last_year]; and, for NEP and NA only, the opening of the mask file.
    The decomposition reads and prints nothing, and such a run has a known
    basin and at least one cluster variable. *)
Theorem X15_order_of_accesses {Ext : Externals} (fs : FileSystem)
    (basin : string) (cluster_variables index_variables : list string)
    (cluster_path indexes_path target_path : string)
    (first_year last_year : Z) (deseasonalize detrend month_col : bool)
    log out :
  build_dataset fs basin cluster_variables index_variables cluster_path
                indexes_path target_path first_year last_year
                deseasonalize detrend month_col = (log, inr out) ->
  In basin ["NWP"; "NEP"; "NA"; "NI"; "SP"; "SI"; "GLB"]%string /\
  cluster_variables <> [] /\
  exists printed,
    Forall is_print printed /\
    log = map (fun ci => ReadTable (index_file indexes_path ci)) index_variables
          ++ map (fun var => ReadCsv (cluster_file cluster_path var))
                 cluster_variables
          ++ printed
          ++ map (fun year => OpenDataset (year_file target_path year))
                 (years_of first_year last_year)
          ++ (if String.eqb basin "NEP" || String.eqb basin "NA"
              then [OpenDataArray (mask_file basin)] else []).
Proof.
  intro E.
  destruct (build_dataset_trace _ _ _ _ _ _ _ _ _ _ _ _ _ _ E)
    as (a & b & c & d & date_range & df_indeces & dc & merged & tcg_ds_or
        & tcg_ds & target & l_idx & l_clu & l_audit & l_open & l_crop & l_dec
        & Hbox & _ & Hidx & Hclu & _ & Haudit & Hopen & Hcrop & _ & Hdec & ->).
  split; [exact (basin_box_returns _ _ Hbox)|].
  destruct (load_clusters_log _ _ _ _ _ _ _ Hclu) as [-> Hnone].
  split.
  { intro Hnil. assert (Some dc = None) by (apply Hnone; auto). discriminate. }
  destruct (load_indeces_log _ _ _ _ _ _ Hidx) as [-> _].
  destruct (open_target_inv _ _ _ _ _ _ Hopen) as (datasets & -> & _ & _).
  rewrite (crop_and_mask_log _ _ _ _ _ _ _ _ _ Hcrop).
  rewrite (decompose_target_log _ _ _ _ _ _ Hdec), app_nil_r.
  exists l_audit. split; [|reflexivity].
  pose proof (audit_log_only_prints (if month_col then add_month_col merged
                                     else merged)) as Hl.
  rewrite Haudit in Hl. exact Hl.
Qed.

Lemma X15_order_of_accesses_witness :
  exists out,
    build_dataset sample_fs "NA" ["sst"%string] ["nino34"%string]
                  "clusters" "indexes" "tcg" 2000 2000 false true true
    = ([ReadTable "indexes/nino34.txt"; ReadCsv "clusters/averages_sst.csv";
        OpenDataset "tcg_2000.nc"; OpenDataArray "NA_mask.nc"], inr out).
Proof.
  destruct (build_dataset sample_fs "NA" ["sst"%string] ["nino34"%string]
              "clusters" "indexes" "tcg" 2000 2000 false true true)
    as [log [e|out]] eqn:E; [vm_compute in E; discriminate E|].
  exists out.
  destruct (X15_order_of_accesses _ _ _ _ _ _ _ _ _ _ _ _ _ _ E)
    as (_ & _ & printed & _ & Hlog).
  vm_compute in E. injection E as <- _. reflexivity.
Defined.

(** ** What a run returns *)










(** ** The yearly files *)

(** X19: the yearly files are opened in year order, and the first one that
    cannot be opened stops the step: the exception of that file is raised,
    the files of the later years are not opened, and the datasets already
    opened are not joined, so nothing partial is returned. *)
Theorem X19_missing_year_file {Ext : Externals} (fs : FileSystem)
    (target_path : string) (first_year last_year : Z)
    (before : list Z) (y : Z) (after : list Z) (e : Exn) :
  years_of first_year last_year = before ++ y :: after ->
  Forall (fun y' => exists d, open_dataset_at fs (year_file target_path y')
                              = inr d) before ->
  open_dataset_at fs (year_file target_path y) = inl e ->
  open_target fs target_path first_year last_year
  = (map (fun year => OpenDataset (year_file target_path year)) (before ++ [y]),
     inl e).
Proof.
  intros Hyears Hbefore Hy. unfold open_target.
  fold (years_of first_year last_year). rewrite Hyears.
  assert (Hloop : for_each (before ++ y :: after)
                    (fun year => xr_open_dataset fs (year_file target_path year))
                  = (map (fun year => OpenDataset (year_file target_path year))
                         (before ++ [y]), inl e)).
  { clear Hyears. induction Hbefore as [|y' before [d Hd] _ IH];
      cbn [app for_each map].
    - unfold xr_open_dataset. rewrite Hy. reflexivity.
    - unfold xr_open_dataset at 1. rewrite Hd. cbn [emit lift bind app].
      rewrite IH. reflexivity. }
  change (fun year => xr_open_dataset fs (target_path ++ "_" ++ str_of_int year ++ ".nc")%string)
    with (fun year => xr_open_dataset fs (year_file target_path year)).
  rewrite Hloop. reflexivity.
Qed.

Lemma X19_missing_year_file_witness :
  open_target sample_fs "tcg" 2000 2002
  = ([OpenDataset "tcg_2000.nc"; OpenDataset "tcg_2001.nc"],
     inl (IOError "tcg_2001.nc")).
Proof.
  apply (X19_missing_year_file sample_fs "tcg" 2000 2002 [2000%Z] 2001 [2002%Z]).
  - reflexivity.
  - constructor; [|constructor]. eexists. reflexivity.
  - reflexivity.
Defined.

(** ** The spatial sum *)

Lemma nansum_cons v l :
  nansum (v :: l) == match v with Num q => q | NaN => 0 end + nansum l.
Proof.
  change (nansum (v :: l))
    with (match v with Num q => q + nansum l | NaN => nansum l end).
  destruct v; ring.
Qed.

Lemma nansum_app l1 l2 : nansum (l1 ++ l2) == nansum l1 + nansum l2.
Proof.
  induction l1 as [|v l1 IH].
  - change (nansum []) with 0. cbn [app]. ring.
  - cbn [app]. rewrite !nansum_cons, IH. ring.
Qed.

Lemma nansum_insert (g : Coord -> value) c l :
  nansum (map g (insert_by_label c l)) == nansum (map g (c :: l)).
Proof.
  induction l as [|d l IH]; [reflexivity|].
  cbn [insert_by_label]. destruct (Qle_bool (label c) (label d)); [reflexivity|].
  cbn [map]. rewrite nansum_cons, IH.
  cbn [map]. rewrite !nansum_cons. ring.
Qed.

Lemma nansum_sortby (g : Coord -> value) l :
  nansum (map g (sortby l)) == nansum (map g l).
Proof.
  induction l as [|c l IH]; [reflexivity|].
  cbn [sortby fold_right]. fold (sortby l).
  rewrite nansum_insert. cbn [map]. rewrite !nansum_cons, IH. reflexivity.
Qed.

Lemma astype_int_compat q r : q == r -> astype_int q = astype_int r.
Proof.
  intro H. unfold astype_int, Qlt_bool.
  rewrite (Qleb_comp 0 0 (Qeq_refl 0) q r H).
  destruct (Qle_bool 0 r); cbn [negb];
    [rewrite (Qfloor_comp q r H)|rewrite (Qceiling_comp q r H)]; reflexivity.
Qed.

Lemma astype_int_whole (m : Z) :
  (-9223372036854775808 <= m <= 9223372036854775807)%Z ->
  astype_int (inject_Z m) = m.
Proof.
  intro H. unfold astype_int.
  assert (Hz : (if Qlt_bool (inject_Z m) 0 then Qceiling (inject_Z m)
                else Qfloor (inject_Z m)) = m)
    by (destruct (Qlt_bool (inject_Z m) 0);
        [apply Qceiling_Z|apply Qfloor_Z]).
  rewrite Hz.
  destruct (Z.leb_spec (-9223372036854775808) m); [|lia].
  destruct (Z.leb_spec m 9223372036854775807); [reflexivity|lia].
Qed.

Lemma nansum_whole bound l :
  (0 <= bound)%Z ->
  Forall (whole_cell bound) l ->
  exists m : Z,
    nansum l == inject_Z m /\
    (- (Z.of_nat (List.length l) * bound) <= m
     <= Z.of_nat (List.length l) * bound)%Z.
Proof.
  intros Hb Hall. induction Hall as [|v l Hv _ IH].
  - exists 0%Z. split; [reflexivity|]. cbn [List.length Z.of_nat]. lia.
  - destruct IH as (m & Hm & Hr).
    destruct v as [|q].
    + exists m. split; [rewrite nansum_cons, Hm; ring|].
      cbn [List.length]. nia.
    + destruct Hv as (n & Hn & Hnr).
      exists (n + m)%Z. split.
      * rewrite nansum_cons. cbv beta iota.
        rewrite Hm, Hn, inject_Z_plus. reflexivity.
      * cbn [List.length]. nia.
Qed.

Lemma length_grid {A} (f : Coord -> Coord -> A) lons lats :
  List.length (flat_map (fun la => map (fun lo => f la lo) lons) lats)
  = (List.length lats * List.length lons)%nat.
Proof.
  induction lats as [|la lats IH]; [reflexivity|].
  cbn [flat_map List.length Nat.mul].
  now rewrite length_app, length_map, IH.
Qed.

(** X20: on a field whose cells are missing or whole numbers, few and small
    enough for their sums to be exact, the sums over latitude and longitude
    are whole numbers of magnitude at most 2^24, which the conversion to
    int64 leaves as they are; and the conversion of the longitudes and the
    sort that follows move the entries of the axis and nothing else: the
    sums of the converted and sorted field are those of the field as
    stored, at every time step. *)
Theorem X20_conversion_keeps_sums (ds : Dataset) (bound : Z) :
  exact_sums ds bound ->
  sum_lat_lon (mkDataset (sortby (map to_0_360 (longitude ds)))
                         (latitude ds) (tcg ds))
  = sum_lat_lon ds /\
  List.length (sum_lat_lon ds) = List.length (tcg ds) /\
  Forall (fun n => (-16777216 <= n <= 16777216)%Z) (sum_lat_lon ds) /\
  (forall i slice,
      nth_error (tcg ds) i = Some slice ->
      exists n : Z,
        nth_error (sum_lat_lon ds) i = Some n /\
        nansum (flat_map (fun la => map (fun lo => slice (origin la) (origin lo))
                                        (longitude ds))
                         (latitude ds)) == inject_Z n).
Proof.
  intros (Hb & Hcells & Hsize).
  assert (Hslice : forall slice, In slice (tcg ds) ->
            exists m : Z,
              nansum (flat_map
                        (fun la => map (fun lo => slice (origin la) (origin lo))
                                       (longitude ds))
                        (latitude ds)) == inject_Z m /\
              (-16777216 <= m <= 16777216)%Z).
  { intros slice Hs.
    destruct (nansum_whole bound
                (flat_map (fun la => map (fun lo => slice (origin la) (origin lo))
                                         (longitude ds))
                          (latitude ds)) Hb) as (m & Hm & Hr).
    - apply Forall_forall. intros v Hv.
      apply in_flat_map in Hv. destruct Hv as (la & Hla & Hv).
      apply in_map_iff in Hv. destruct Hv as (lo & <- & Hlo).
      now apply Hcells.
    - exists m. split; [exact Hm|].
      rewrite (length_grid (fun la lo => slice (origin la) (origin lo))) in Hr.
      lia. }
  split; [|split; [unfold sum_lat_lon; apply length_map|split]].
  - unfold sum_lat_lon. cbn [longitude latitude tcg].
    apply map_ext. intro slice. apply astype_int_compat.
    clear. induction (latitude ds) as [|la lats IH]; [reflexivity|].
    cbn [flat_map]. rewrite !nansum_app, IH.
    rewrite nansum_sortby, map_map. reflexivity.
  - unfold sum_lat_lon. apply Forall_forall. intros n Hn.
    apply in_map_iff in Hn. destruct Hn as (slice & <- & Hs).
    destruct (Hslice slice Hs) as (m & Hm & Hr).
    rewrite (astype_int_compat _ _ Hm), astype_int_whole; lia.
  - intros i slice Hi.
    destruct (Hslice slice (nth_error_In _ _ Hi)) as (m & Hm & Hr).
    exists m. split; [|exact Hm].
    unfold sum_lat_lon. rewrite nth_error_map, Hi. cbn [option_map].
    f_equal. rewrite (astype_int_compat _ _ Hm). apply astype_int_whole. lia.
Qed.

Lemma X20_conversion_keeps_sums_witness :
  exact_sums sample_globe 14 /\
  sum_lat_lon (mkDataset (sortby (map to_0_360 (longitude sample_globe)))
                         (latitude sample_globe) (tcg sample_globe))
  = [385%Z].
Proof.
  assert (Hex : exact_sums sample_globe 14).
  { split; [lia|]. split; [|vm_compute; discriminate].
    intros slice la lo Hs Hla Hlo.
    simpl in Hs. destruct Hs as [<-|[]].
    exists (Z.of_nat (origin la + origin lo)). split; [reflexivity|].
    simpl in Hla, Hlo.
    repeat (destruct Hla as [<-|Hla];
            [repeat (destruct Hlo as [<-|Hlo]; [vm_compute; split; discriminate|]);
             destruct Hlo|]).
    destruct Hla. }
  split; [exact Hex|].
  rewrite (proj1 (X20_conversion_keeps_sums sample_globe 14 Hex)).
  vm_compute. reflexivity.
Defined.

(** ** The calendar, year by year *)

Lemma arange_app k n m :
  arange k (n + m) = arange k n ++ arange (k + Z.of_nat n) m.
Proof.
  revert k. induction n as [|n IH]; intro k.
  - cbn [Nat.add arange app]. now rewrite Z.add_0_r.
  - cbn [Nat.add arange app]. rewrite IH. do 3 f_equal. lia.
Qed.

Lemma arange_shift k n d :
  arange (k + d) n = map (fun j => (j + d)%Z) (arange k n).
Proof.
  revert k. induction n as [|n IH]; intro k; [reflexivity|].
  cbn [arange map]. f_equal. rewrite <- IH. f_equal. lia.
Qed.

Lemma flat_map_years fy n :
  flat_map (fun y => map (nth_month y) (arange 0 12)) (arange fy n)
  = map (nth_month fy) (arange 0 (12 * n)).
Proof.
  revert fy. induction n as [|n IH]; intro fy; [reflexivity|].
  replace (12 * S n)%nat with (12 + 12 * n)%nat by lia.
  rewrite arange_app, map_app. cbn [arange flat_map].
  f_equal. rewrite IH.
  change (0 + Z.of_nat 12)%Z with (0 + 12)%Z.
  rewrite arange_shift, map_map. apply map_ext_in. intros j Hj.
  apply In_arange in Hj. unfold nth_month.
  f_equal; Z.to_euclidean_division_equations; lia.
Qed.

(** X21: for years from 1678 to 2261 the calendar that line 64 builds is
    made year by year over the very years whose files the target step
    opens: it is the twelve month starts of [first_year], then those of
    the next year, and so on to [last_year], so it has twelve entries for
    each yearly file; and whatever the years, when
    [last_year < first_year] there is no year, no file is opened and
    [xr.concat] is given an empty list. *)
Theorem X21_calendar_by_years {Ext : Externals} (fs : FileSystem)
    (target_path : string) (first_year last_year : Z) :
  (iso_year first_year -> iso_year last_year ->
   build_calendar first_year last_year
   = ([], inr (flat_map (fun y => map (fun m => mkTimestamp y m 1) (arange 1 12))
                        (years_of first_year last_year))) /\
   List.length (flat_map (fun y => map (fun m => mkTimestamp y m 1) (arange 1 12))
                         (years_of first_year last_year))
   = (12 * List.length (years_of first_year last_year))%nat) /\
  ((last_year < first_year)%Z ->
   years_of first_year last_year = [] /\
   open_target fs target_path first_year last_year = ([], xr_concat_time [])).
Proof.
  assert (Hcal : calendar_of first_year last_year
                 = flat_map (fun y => map (fun m => mkTimestamp y m 1)
                                          (arange 1 12))
                            (years_of first_year last_year)).
  { unfold years_of.
    destruct (Z_lt_le_dec last_year first_year) as [Hlt|Hle].
    - rewrite calendar_of_empty by assumption.
      replace (Z.to_nat (last_year + 1 - first_year)) with 0%nat by lia.
      reflexivity.
    - rewrite calendar_of_months by assumption.
      replace (Z.to_nat (12 * (last_year - first_year + 1)))
        with (12 * Z.to_nat (last_year + 1 - first_year))%nat by lia.
      rewrite <- flat_map_years. apply flat_map_ext. intro y.
      cbn [arange map]. unfold nth_month.
      repeat f_equal; try reflexivity; Z.to_euclidean_division_equations; lia. }
  split.
  - intros Hf Hl. split; [rewrite <- Hcal; now apply build_calendar_iso|].
    clear Hcal.
    induction (years_of first_year last_year) as [|y l IH]; [reflexivity|].
    cbn [flat_map]. rewrite length_app, IH, length_map, length_arange.
    cbn [List.length]. lia.
  - intro Hlt.
    assert (Hy : years_of first_year last_year = []).
    { unfold years_of.
      now replace (Z.to_nat (last_year + 1 - first_year)) with 0%nat by lia. }
    split; [exact Hy|].
    unfold open_target. fold (years_of first_year last_year). rewrite Hy.
    cbn [for_each ret bind lift app]. now destruct (xr_concat_time []).
Qed.

Lemma X21_calendar_by_years_witness :
  iso_year 2000 /\ iso_year 2001 /\
  List.length (flat_map (fun y => map (fun m => mkTimestamp y m 1) (arange 1 12))
                        (years_of 2000 2001)) = 24%nat /\
  (2000 < 2001)%Z /\
  open_target sample_fs "tcg" 2001 2000
  = ([], inl (ValueError "must supply at least one object to concatenate")).
Proof.
  assert (H0 : iso_year 2000) by (unfold iso_year; lia).
  assert (H1 : iso_year 2001) by (unfold iso_year; lia).
  split; [exact H0|]. split; [exact H1|].
  split.
  - destruct (X21_calendar_by_years sample_fs "tcg" 2000 2001) as [H _].
    destruct (H H0 H1) as [_ Hlen]. rewrite Hlen. reflexivity.
  - split; [lia|].
    destruct (X21_calendar_by_years sample_fs "tcg" 2001 2000) as (_ & H).
    destruct H as [_ H]; [lia|]. rewrite H. reflexivity.
Defined.

(** ** The table of the basins *)

(** X22: [basin_box] knows exactly the seven basins.  Every box it returns
    has its southern bound below its northern one, within [-40, 40]; the
    western bound is east of the eastern one for SP only; and the test of
    line 28 fires on the box, so that cropping to it converts the
    longitudes, for NWP, NEP and SP only. *)
Theorem X22_basin_table (basin : string) :
  ((exists box, basin_box basin = inr box) <->
   In basin ["NWP"; "NEP"; "NA"; "NI"; "SP"; "SI"; "GLB"]%string) /\
  (forall min_lon max_lon min_lat max_lat,
      basin_box basin = inr (min_lon, max_lon, min_lat, max_lat) ->
      min_lat < max_lat /\ -40 <= min_lat /\ max_lat <= 40 /\
      (max_lon < min_lon <-> basin = "SP"%string) /\
      (touches_meridian_180 min_lon max_lon = true <->
       In basin ["NWP"; "NEP"; "SP"]%string)).
Proof.
  split.
  - split; [intros [box H]; exact (basin_box_returns _ _ H)|apply basin_box_known].
  - intros min_lon max_lon min_lat max_lat H.
    pose proof (basin_box_returns _ _ H) as Hin. simpl in Hin.
    destruct Hin as [<-|[<-|[<-|[<-|[<-|[<-|[<-|[]]]]]]]];
      vm_compute in H; injection H as <- <- <- <-;
      (split; [reflexivity|]); (split; [discriminate|]);
      (split; [discriminate|]);
      (split; [split; [intro Hc; first [reflexivity | discriminate Hc]
                      |intro Hc; first [reflexivity | discriminate Hc]]|]);
      (split; [intro Hc; first [discriminate Hc | simpl; tauto]
              |intro Hc; first [reflexivity
                               | simpl in Hc;
                                 destruct Hc as [Hc|[Hc|[Hc|[]]]]; discriminate Hc]]).
Qed.

Lemma X22_basin_table_witness :
  basin_box "SP" = inr (135, -70, -40, 0) /\
  touches_meridian_180 135 (-70) = true.
Proof.
  split; [reflexivity|].
  destruct (X22_basin_table "SP") as [_ H].
  destruct (H 135 (-70) (-40) 0 eq_refl) as (_ & _ & _ & _ & Ht).
  apply Ht. simpl. do 2 right. left. reflexivity.
Defined.

(** ** Which exception a look-up raises *)

(** X23: the look-up of line 73 returns a value exactly when the table has
    a row for the year and a column for the month; it raises [KeyError]
    exactly when the month is not a column label of the table, and
    [IndexError] exactly when the column exists and no row is for the
    year. *)
Theorem X23_table_lookup_outcomes (data : Table) (y m : Z) :
  ((exists v, table_lookup data y m = inr v) <-> cell_present data y m) /\
  (table_lookup data y m = inl KeyError <->
   ~ (0 <= m < Z.of_nat (ncols data))%Z) /\
  (table_lookup data y m = inl IndexError <->
   (0 <= m < Z.of_nat (ncols data))%Z /\
   Forall (fun row => value_eqb (nth 0 row NaN) (Num (inject_Z y)) = false)
          (rows data)).
Proof.
  split; [split; [intros [v H]; exact (table_lookup_returns _ _ _ _ H)
                 |apply table_lookup_present]|].
  unfold table_lookup.
  destruct (Nat.eqb_spec (ncols data) 0) as [E0|E0].
  - rewrite E0. cbn [Z.of_nat]. split; split; try discriminate; try lia.
    intros _. reflexivity.
  - destruct (Z.leb_spec 0 m) as [H0|H0];
      destruct (Z.ltb_spec m (Z.of_nat (ncols data))) as [H1|H1];
      cbn [andb]; try (split; split; try discriminate; try lia;
                       intros _; reflexivity).
    destruct (filter _ (rows data)) as [|row sel] eqn:Ef; cbn [map].
    + split; split; try discriminate; try lia.
      * intros _. split; [lia|].
        apply Forall_forall. intros row Hrow.
        destruct (value_eqb (nth 0 row NaN) (Num (inject_Z y))) eqn:Ev;
          [|reflexivity].
        assert (Hf : In row (filter (fun row => value_eqb (nth 0 row NaN)
                                                          (Num (inject_Z y)))
                                    (rows data)))
          by (apply filter_In; split; assumption).
        rewrite Ef in Hf. destruct Hf.
      * reflexivity.
    + split; split; try discriminate; try lia.
      intros [_ Hnone]. rewrite (filter_none _ _ Hnone) in Ef. discriminate Ef.
Qed.
